(** * El-Misk: prayer schedule evaluation, adhan trigger and Qibla bearing

    Shallow embedding of [src/lib/adhan.ts] ([getPrayerTimes]) and of the
    computations of [src/App.tsx] that carry logic: the Qibla bearing and
    the compass heading ([QiblaSection]), the adhan trigger effect and the
    persisted settings of [App], the city lookup ([SettingsSection]), the
    tally counter ([TasbeehSection]), the remembrance cards ([ThikrCard]),
    the prayer tracker ([PrayerLog]) and the surah search ([QuranSection]).

    Numbers.  A JavaScript [number] is idealised as a real number: [Math.sin],
    [Math.cos], [Math.tan] are the real functions, and rounding of IEEE
    doubles is not modelled.  [Math.atan2] and [%] follow ECMAScript on the
    cases where the real functions are silent (the origin, the sign of the
    remainder).  A [Date] is its time value, an integer number of
    milliseconds. *)

From Stdlib Require Import Reals Lra ZArith Lia List Ascii String Bool.
Import ListNotations.

(** ** The [Math] object and the remainder operator *)

Module JsMath.
Local Open Scope R_scope.

(** [Math.atan2(y, x)]: the angle of the point (x, y), in (-PI, PI].
    ECMAScript fixes [Math.atan2(+0, +0) = +0] and [Math.atan2(+0, x) = PI]
    for [x < 0]; the zero of the reals stands for [+0]. *)
Definition Math_atan2 (y x : R) : R :=
  match total_order_T 0 x with
  | inleft (left _) => atan (y / x)
  | inleft (right _) =>
      match total_order_T 0 y with
      | inleft (left _) => PI / 2
      | inleft (right _) => 0
      | inright _ => - (PI / 2)
      end
  | inright _ =>
      if Rle_dec 0 y then atan (y / x) + PI else atan (y / x) - PI
  end.

(** Truncation toward zero, the quotient used by [%]. *)
Definition trunc (r : R) : Z :=
  if Rle_dec 0 r then Int_part r else (- Int_part (- r))%Z.

(** [a % b] on numbers: the remainder takes the sign of the dividend.
    (For [b = 0] JavaScript yields NaN; the program only divides by 360.) *)
Definition rem (a b : R) : R := a - b * IZR (trunc (a / b)).

(** [Math.round]: the nearest integer, ties upward. *)
Definition Math_round (r : R) : Z := Int_part (r + / 2).

End JsMath.

(** ** [QiblaSection]: the bearing toward the Kaaba *)

Module Qibla.
Import JsMath.
Local Open Scope R_scope.

(** The [location] prop: an object with [latitude] and [longitude], or
    [null]. *)
Record Location : Type := mkLocation { latitude : R; longitude : R }.

(** The body of the [useMemo] callback that computes [qiblaAngle]. *)
Definition qiblaAngle (location : option Location) : R :=
  match location with
  | None => 0
  | Some location =>
      let phiK := 21.4225 * PI / 180 in
      let lambdaK := 39.8262 * PI / 180 in
      let phi := latitude location * PI / 180 in
      let lambda := longitude location * PI / 180 in
      let y := sin (lambdaK - lambda) in
      let x := cos phi * tan phiK - sin phi * cos (lambdaK - lambda) in
      let qibla := Math_atan2 y x * 180 / PI in
      rem (qibla + 360) 360
  end.

(** What the component renders from it: the needle's rotation
    [qiblaAngle - heading] and the label [Math.round(qiblaAngle)]. *)
Definition needleRotation (location : option Location) (heading : R) : R :=
  qiblaAngle location - heading.

Definition bearingLabel (location : option Location) : Z :=
  Math_round (qiblaAngle location).

(** *** The bearing as the specification words it

    Observer at latitude [phi] and longitude [lambda] (radians), Kaaba at
    [phi_k], [lambda_k]; [atan2] of the two components, in degrees, brought
    into [0, 360) by adding the multiple of 360 that lands there. *)
Definition kaabaLatitude : R := 21.4225.
Definition kaabaLongitude : R := 39.8262.
Definition radians (deg : R) : R := deg * PI / 180.
Definition degrees (rad : R) : R := rad * 180 / PI.

Definition normalize360 (d : R) : R := d - 360 * IZR (Int_part (d / 360)).

Definition initialBearing (lat lon : R) : R :=
  let phi := radians lat in
  let lambda := radians lon in
  let phi_k := radians kaabaLatitude in
  let dlambda := radians kaabaLongitude - lambda in
  let y := sin dlambda in
  let x := cos phi * tan phi_k - sin phi * cos dlambda in
  normalize360 (degrees (Math_atan2 y x)).

(** The two arguments [y] and [x] that [qiblaAngle] hands to [Math.atan2],
    as functions of the observer's coordinates in degrees. *)
Definition easting (lat lon : R) : R :=
  sin (radians kaabaLongitude - radians lon).

Definition northing (lat lon : R) : R :=
  cos (radians lat) * tan (radians kaabaLatitude)
  - sin (radians lat) * cos (radians kaabaLongitude - radians lon).

End Qibla.

(** ** Dates and the wall clock *)

Module Js.

(** A [Date], by its time value (milliseconds since the epoch). *)
Definition Date : Type := Z.

(** The wall clock: what the k-th evaluation of [new Date()] yields. *)
Definition Clock : Type := nat -> Date.

(** Code that may read the clock: it runs against a clock and the number of
    readings already taken, and returns its value with the new count. *)
Definition JS (A : Type) : Type := Clock -> nat -> A * nat.

Definition ret {A : Type} (a : A) : JS A := fun _ n => (a, n).

Definition bind {A B : Type} (m : JS A) (k : A -> JS B) : JS B :=
  fun clock n => let (a, n') := m clock n in k a clock n'.

(** [new Date()] *)
Definition newDate : JS Date := fun clock n => (clock n, S n).

Definition run {A : Type} (m : JS A) (clock : Clock) : A := fst (m clock 0%nat).

Module Notations.
Notation "x <- m ;; k" := (bind m (fun x => k))
  (at level 61, m at next level, right associativity).
End Notations.

End Js.

(** ** The [adhan] package, as [getPrayerTimes] uses it

    The package is a dependency; its sources are not part of the
    repository.  The solver ([new PrayerTimes(coords, date, params)]), the
    parameter bundles ([CalculationMethod]) and [timeForPrayer] stay
    abstract below; [currentPrayer] is given the behaviour the
    specification lays down for the schedule evaluator, [nextPrayer] the
    behaviour of the package, beside the specification's wording of it. *)

Module AdhanLib.
Import Js.
Local Open Scope Z_scope.

(** [Prayer]; [NoPrayer] is [Prayer.None]. *)
Inductive Prayer : Type :=
  Fajr | Sunrise | Dhuhr | Asr | Maghrib | Isha | NoPrayer.

Record Coordinates : Type := mkCoordinates { latitude : R; longitude : R }.

(** The six instants a [PrayerTimes] object carries. *)
Record PrayerTimes : Type := mkPrayerTimes {
  fajr : Date;
  sunrise : Date;
  dhuhr : Date;
  asr : Date;
  maghrib : Date;
  isha : Date
}.

(** The six boundaries in schedule order. *)
Definition boundaries (pt : PrayerTimes) : list (Prayer * Date) :=
  [ (Fajr, fajr pt); (Sunrise, sunrise pt); (Dhuhr, dhuhr pt);
    (Asr, asr pt); (Maghrib, maghrib pt); (Isha, isha pt) ].

(** The schedule invariant of the data model. *)
Definition ordered (pt : PrayerTimes) : Prop :=
  fajr pt < sunrise pt /\ sunrise pt < dhuhr pt /\ dhuhr pt < asr pt /\
  asr pt < maghrib pt /\ maghrib pt < isha pt.

(** An instant before all six boundaries. *)
Definition beforeAll (pt : PrayerTimes) : Date :=
  Z.min (fajr pt) (Z.min (sunrise pt) (Z.min (dhuhr pt)
    (Z.min (asr pt) (Z.min (maghrib pt) (isha pt))))) - 1.

(** [lo <= now < hi] *)
Definition within (lo hi now : Date) : bool := (lo <=? now) && (now <? hi).

(** Modelled from the spec: the body of [PrayerTimes.currentPrayer] of the
    adhan package is missing.  The windows are the closed-open intervals
    [fajr..sunrise), [sunrise..dhuhr), [dhuhr..asr), [asr..maghrib),
    [maghrib..isha) and [isha..next fajr); before fajr it is night. *)
Definition currentAt (pt : PrayerTimes) (now : Date) : Prayer :=
  if within (fajr pt) (sunrise pt) now then Fajr
  else if within (sunrise pt) (dhuhr pt) now then Sunrise
  else if within (dhuhr pt) (asr pt) now then Dhuhr
  else if within (asr pt) (maghrib pt) now then Asr
  else if within (maghrib pt) (isha pt) now then Maghrib
  else if isha pt <=? now then Isha
  else NoPrayer.

(** The body of [PrayerTimes.nextPrayer] is in the adhan package, not in
    the repository; this is the package's behaviour: going down from isha,
    the prayer that follows the last boundary [date] has reached, and
    [Prayer.None] once isha itself is reached. *)
Definition nextAt (pt : PrayerTimes) (now : Date) : Prayer :=
  if isha pt <=? now then NoPrayer
  else if maghrib pt <=? now then Isha
  else if asr pt <=? now then Maghrib
  else if dhuhr pt <=? now then Asr
  else if sunrise pt <=? now then Dhuhr
  else if fajr pt <=? now then Sunrise
  else Fajr.

(** Modelled from the spec: the next prayer as the specification words it,
    for comparison with [nextAt].  The first boundary strictly greater than
    [now]; past the last one the answer wraps to fajr (of the next day). *)
Definition nextBySpec (pt : PrayerTimes) (now : Date) : Prayer :=
  match find (fun b => now <? snd b) (boundaries pt) with
  | Some b => fst b
  | None => Fajr
  end.

(** A parameter with a default value: [None] when the caller omits it. *)
Definition orDefault {A : Type} (arg : option A) (dflt : JS A) : JS A :=
  match arg with
  | Some a => ret a
  | None => dflt
  end.

(** The two methods as the package declares them,
    [currentPrayer(date = new Date())] and [nextPrayer(date = new Date())]:
    without an argument they evaluate at a fresh reading of the clock. *)
Definition currentPrayer (pt : PrayerTimes) (date : option Date) : JS Prayer :=
  bind (orDefault date newDate) (fun date => ret (currentAt pt date)).

Definition nextPrayer (pt : PrayerTimes) (date : option Date) : JS Prayer :=
  bind (orDefault date newDate) (fun date => ret (nextAt pt date)).

End AdhanLib.

(** ** [src/lib/adhan.ts] *)

Module Adhan.
Import Js Js.Notations AdhanLib.

(** The object [getPrayerTimes] returns. *)
Record PrayerTimesResult : Type := mkResult {
  fajr : Date;
  sunrise : Date;
  dhuhr : Date;
  asr : Date;
  maghrib : Date;
  isha : Date;
  current : Prayer;
  next : Prayer;
  timeForNext : option Date
}.

Section GetPrayerTimes.

(** [keyof typeof CalculationMethod] and the bundle each key builds. *)
Variable CalculationMethodType : Type.
Variable CalculationParameters : Type.
Variable CalculationMethod : CalculationMethodType -> CalculationParameters.
Variable Egyptian : CalculationMethodType.

(** [new PrayerTimes(coords, date, params)] *)
Variable solve : Coordinates -> Date -> CalculationParameters -> PrayerTimes.

(** [prayerTimes.timeForPrayer(prayer)]; [None] is [null]. *)
Variable timeForPrayer : PrayerTimes -> Prayer -> option Date.

(** [getPrayerTimes(latitude, longitude, method = 'Egyptian',
    date = new Date())].  The object literal is evaluated field by field;
    [currentPrayer()] and both [nextPrayer()] calls omit the [date]
    argument. *)
Definition getPrayerTimes (latitude longitude : R)
    (method : option CalculationMethodType) (date : option Date)
    : JS PrayerTimesResult :=
  method <- orDefault method (ret Egyptian) ;;
  date <- orDefault date newDate ;;
  let coords := mkCoordinates latitude longitude in
  let params := CalculationMethod method in
  let prayerTimes := solve coords date params in
  current <- currentPrayer prayerTimes None ;;
  next <- nextPrayer prayerTimes None ;;
  next' <- nextPrayer prayerTimes None ;;
  ret {| fajr := AdhanLib.fajr prayerTimes;
         sunrise := AdhanLib.sunrise prayerTimes;
         dhuhr := AdhanLib.dhuhr prayerTimes;
         asr := AdhanLib.asr prayerTimes;
         maghrib := AdhanLib.maghrib prayerTimes;
         isha := AdhanLib.isha prayerTimes;
         current := current;
         next := next;
         timeForNext := timeForPrayer prayerTimes next' |}.

(** The determinism the specification asks of it: with the four arguments
    fixed, any two invocations return the same object, whatever the clock
    shows during each. *)
Definition deterministic : Prop :=
  forall latitude longitude method date (clock1 clock2 : Clock),
    run (getPrayerTimes latitude longitude (Some method) (Some date)) clock1 =
    run (getPrayerTimes latitude longitude (Some method) (Some date)) clock2.

End GetPrayerTimes.

End Adhan.

(** ** [src/App.tsx]: the adhan trigger *)

Module App.
Import Js Js.Notations.
Local Open Scope Z_scope.
Local Open Scope string_scope.

(** The state the trigger touches: [lastAdhanPlayed] ([None] is [null]) and,
    as a record of the effect [playAdhan()], the keys it was called for, in
    order. *)
Record AdhanState : Type := mkAdhanState {
  lastAdhanPlayed : option string;
  adhanLog : list string
}.

Definition initialState : AdhanState :=
  {| lastAdhanPlayed := None; adhanLog := [] |}.

(** [const prayers = ['fajr', 'dhuhr', 'asr', 'maghrib', 'isha']] *)
Definition prayers : list string := ["fajr"; "dhuhr"; "asr"; "maghrib"; "isha"].

(** [prayerTimes[p] as Date]: the property of that name, when it holds a
    [Date]. *)
Definition prayerField (prayerTimes : Adhan.PrayerTimesResult) (p : string)
    : option Date :=
  if p =? "fajr" then Some (Adhan.fajr prayerTimes)
  else if p =? "sunrise" then Some (Adhan.sunrise prayerTimes)
  else if p =? "dhuhr" then Some (Adhan.dhuhr prayerTimes)
  else if p =? "asr" then Some (Adhan.asr prayerTimes)
  else if p =? "maghrib" then Some (Adhan.maghrib prayerTimes)
  else if p =? "isha" then Some (Adhan.isha prayerTimes)
  else if p =? "timeForNext" then Adhan.timeForNext prayerTimes
  else None.

(** [lastAdhanPlayed !== todayKey] *)
Definition differs (last : option string) (key : string) : bool :=
  match last with
  | Some s => negb (s =? key)
  | None => true
  end.

Section Trigger.

(** The device's zone, as a fixed offset from UTC in milliseconds, and the
    text [Date.prototype.toDateString] prints for a calendar day, given by
    its number since the epoch. *)
Variable zoneOffset : Z.
Variable dayString : Z -> string.

Definition localDay (d : Date) : Z := (d + zoneOffset) / 86400000.
Definition toDateString (d : Date) : string := dayString (localDay d).

Definition getHours (d : Date) : Z := ((d + zoneOffset) / 3600000) mod 24.
Definition getMinutes (d : Date) : Z := ((d + zoneOffset) / 60000) mod 60.

(** [d.getHours() * 60 + d.getMinutes()]: the code's [currentMinutes] and
    [pMinutes]. *)
Definition minuteOfDay (d : Date) : Z := getHours d * 60 + getMinutes d.

(** The template literal [`${now.toDateString()}-${p}`]. *)
Definition todayKey (now : Date) (p : string) : string :=
  toDateString now ++ "-" ++ p.

(** The [for] loop over [prayers]: the key it fires for, if any; firing
    leaves the loop ([break]). *)
Fixpoint firstDue (prayerTimes : Adhan.PrayerTimesResult) (now : Date)
    (last : option string) (ps : list string) : option string :=
  match ps with
  | [] => None
  | p :: rest =>
      match prayerField prayerTimes p with
      | Some pTime =>
          if (minuteOfDay now =? minuteOfDay pTime)%Z
             && differs last (todayKey now p)
          then Some (todayKey now p)
          else firstDue prayerTimes now last rest
      | None => firstDue prayerTimes now last rest
      end
  end.

(** One run of the effect, with the values its closure captured. *)
Definition adhanEffect (adhanEnabled : bool)
    (prayerTimes : option Adhan.PrayerTimesResult) (st : AdhanState)
    : JS AdhanState :=
  match adhanEnabled, prayerTimes with
  | true, Some prayerTimes =>
      now <- newDate ;;
      match firstDue prayerTimes now (lastAdhanPlayed st) prayers with
      | Some key =>
          ret {| lastAdhanPlayed := Some key;
                 adhanLog := adhanLog st ++ [key] |}
      | None => ret st
      end
  | _, _ => ret st
  end.

(** The effect over successive renders; each render brings its own
    [adhanEnabled] and [prayerTimes]. *)
Fixpoint renders (rs : list (bool * option Adhan.PrayerTimesResult))
    (st : AdhanState) : JS AdhanState :=
  match rs with
  | [] => ret st
  | (adhanEnabled, prayerTimes) :: rest =>
      st' <- adhanEffect adhanEnabled prayerTimes st ;;
      renders rest st'
  end.

(** *** What the trigger is meant to maintain

    Minutes since the epoch in the device's zone; a key is one the loop can
    fire in minute [m] when it names the day of [m] and a prayer due at
    [m]'s minute of the day. *)
Definition minuteIndex (d : Date) : Z := (d + zoneOffset) / 60000.

Definition firesIn (prayerTimes : Adhan.PrayerTimesResult) (key : string)
    (m : Z) : Prop :=
  exists p pTime,
    In p prayers /\ prayerField prayerTimes p = Some pTime /\
    key = dayString (m / 1440) ++ "-" ++ p /\
    m mod 1440 = minuteOfDay pTime.

(** The state after the readings up to minute [latest]: no key was played
    twice, every key played belongs to a minute already reached, and a key
    of the minute [latest] itself is the one remembered. *)
Definition triggerInv (prayerTimes : Adhan.PrayerTimesResult)
    (st : AdhanState) (latest : Z) : Prop :=
  NoDup (adhanLog st) /\
  (forall key, In key (adhanLog st) ->
     exists m, firesIn prayerTimes key m /\ m <= latest) /\
  (forall key, In key (adhanLog st) -> firesIn prayerTimes key latest ->
     lastAdhanPlayed st = Some key).

(** No two of the five prayers of the schedule fall in the same minute of
    the day. *)
Definition distinctMinutes (prayerTimes : Adhan.PrayerTimesResult) : Prop :=
  forall p p' t t',
    In p prayers -> In p' prayers ->
    prayerField prayerTimes p = Some t ->
    prayerField prayerTimes p' = Some t' ->
    minuteOfDay t = minuteOfDay t' -> p = p'.

(** Keys tell days and prayers apart. *)
Definition keysInjective : Prop :=
  forall d d' p p',
    In p prayers -> In p' prayers ->
    dayString d ++ "-" ++ p = dayString d' ++ "-" ++ p' ->
    d = d' /\ p = p'.

End Trigger.

(** The clock never runs backwards. *)
Definition monotone (clock : Clock) : Prop :=
  forall i j : nat, (i <= j)%nat -> clock i <= clock j.

End App.

(** ** Concrete instances

    Where a statement is exercised on concrete data the abstract parts of
    the package are instantiated by stand-ins: method keys are their names,
    the solver returns one fixed schedule, and [timeForPrayer] reads the
    instant stored under the prayer's name. *)

Module Sample.
Import Js AdhanLib.
Local Open Scope Z_scope.

(** Sample values for Cairo (30.0444 N, 31.2357 E) on 1 November 2026, in
    local time (UTC+2): fajr 04:41, sunrise 06:08, dhuhr 11:39, asr 14:46,
    maghrib 17:09, isha 18:27. *)
Definition cairo : PrayerTimes :=
  {| fajr := 1793500860000;
     sunrise := 1793506080000;
     dhuhr := 1793525940000;
     asr := 1793537160000;
     maghrib := 1793545740000;
     isha := 1793550420000 |}.

Definition solve (_ : Coordinates) (_ : Date) (_ : string) : PrayerTimes := cairo.

Definition timeForPrayer (pt : PrayerTimes) (p : Prayer) : option Date :=
  match p with
  | Fajr => Some (fajr pt)
  | Sunrise => Some (sunrise pt)
  | Dhuhr => Some (dhuhr pt)
  | Asr => Some (asr pt)
  | Maghrib => Some (maghrib pt)
  | Isha => Some (isha pt)
  | NoPrayer => None
  end.

Definition getPrayerTimes :=
  Adhan.getPrayerTimes string string (fun key => key) "Egyptian"%string
    solve timeForPrayer.

(** A clock that shows the same instant at every reading. *)
Definition stopped (t : Date) : Clock := fun _ => t.

(** Sample values for London (51.5 N) on 21 June 2026, British Summer Time
    (UTC+1): twilight lasts all night, and a schedule that falls back on
    the middle of the night puts fajr at 01:02 on the 21st and isha at 01:02
    on the 22nd; sunrise 04:43, dhuhr 13:03, asr 17:25, maghrib 21:22. *)
Definition bst : Z := 3600000.

Definition london : Adhan.PrayerTimesResult :=
  {| Adhan.fajr := 1782000120000;
     Adhan.sunrise := 1782013380000;
     Adhan.dhuhr := 1782043380000;
     Adhan.asr := 1782059100000;
     Adhan.maghrib := 1782073320000;
     Adhan.isha := 1782086520000;
     Adhan.current := Fajr;
     Adhan.next := Sunrise;
     Adhan.timeForNext := Some 1782013380000 |}.

(** A clock read once a second from [start] on. *)
Definition ticking (start : Date) : Clock :=
  fun k => start + 1000 * Z.of_nat k.

(** Readings from 01:02:00 of 21 June on. *)
Definition londonClock : Clock := ticking 1782000120000.

(** The Cairo schedule as [getPrayerTimes] returns it in mid-morning, for a
    device on Cairo time (UTC+2). *)
Definition eet : Z := 7200000.

Definition cairoResult : Adhan.PrayerTimesResult :=
  {| Adhan.fajr := fajr cairo;
     Adhan.sunrise := sunrise cairo;
     Adhan.dhuhr := dhuhr cairo;
     Adhan.asr := asr cairo;
     Adhan.maghrib := maghrib cairo;
     Adhan.isha := isha cairo;
     Adhan.current := Sunrise;
     Adhan.next := Dhuhr;
     Adhan.timeForNext := Some (dhuhr cairo) |}.

(** The same schedule as it is returned at fajr and at dhuhr: the
    evaluator's fields have moved on. *)
Definition cairoAtFajr : Adhan.PrayerTimesResult :=
  {| Adhan.fajr := fajr cairo;
     Adhan.sunrise := sunrise cairo;
     Adhan.dhuhr := dhuhr cairo;
     Adhan.asr := asr cairo;
     Adhan.maghrib := maghrib cairo;
     Adhan.isha := isha cairo;
     Adhan.current := Fajr;
     Adhan.next := Sunrise;
     Adhan.timeForNext := Some (sunrise cairo) |}.

Definition cairoAtDhuhr : Adhan.PrayerTimesResult :=
  {| Adhan.fajr := fajr cairo;
     Adhan.sunrise := sunrise cairo;
     Adhan.dhuhr := dhuhr cairo;
     Adhan.asr := asr cairo;
     Adhan.maghrib := maghrib cairo;
     Adhan.isha := isha cairo;
     Adhan.current := Dhuhr;
     Adhan.next := Asr;
     Adhan.timeForNext := Some (asr cairo) |}.

(** A clock read twice in the minute of fajr, one second apart, and from
    then on in the minute of dhuhr and after. *)
Definition fajrThenDhuhr : Clock :=
  fun k => if (k <? 2)%nat then fajr cairo + 1000 * Z.of_nat k
           else dhuhr cairo + 1000 * Z.of_nat k.

(** A stand-in for the text of a day: a sign and the day number in unary. *)
Fixpoint tally (n : nat) : string :=
  match n with
  | O => EmptyString
  | S n' => String "x"%char (tally n')
  end.

Definition unaryDay (d : Z) : string :=
  String (if d <? 0 then "m"%char else "p"%char) (tally (Z.abs_nat d)).

(** A stand-in for [toLowerCase]: the letters A to Z are lowered, every
    other character is kept. *)
Definition lowerChar (c : ascii) : ascii :=
  let n := nat_of_ascii c in
  if ((65 <=? n) && (n <=? 90))%nat then ascii_of_nat (n + 32) else c.

Fixpoint lowerAscii (s : string) : string :=
  match s with
  | EmptyString => EmptyString
  | String c rest => String (lowerChar c) (lowerAscii rest)
  end.

(** A stand-in for [JSON.stringify] on a prayer log: its keys, separated by
    commas. *)
Definition keysOf (log : list (string * bool)) : string :=
  String.concat "," (map fst log).

End Sample.

(** ** [localStorage] *)

Module LocalStorage.
Local Open Scope string_scope.

(** The store: what [getItem] returns for each key ([None] is [null]). *)
Definition Storage : Type := string -> option string.

Definition empty : Storage := fun _ => None.

Definition getItem (storage : Storage) (key : string) : option string :=
  storage key.

Definition setItem (storage : Storage) (key value : string) : Storage :=
  fun k => if k =? key then Some value else storage k.

(** [b.toString()] on a boolean. *)
Definition boolToString (b : bool) : string := if b then "true" else "false".

(** [v || dflt] on a string or [null]: the empty string is falsy too. *)
Definition orElse (v : option string) (dflt : string) : string :=
  match v with
  | Some s => if s =? "" then dflt else s
  | None => dflt
  end.

End LocalStorage.

(** ** [App]: settings kept across reloads *)

Module Settings.
Import LocalStorage.
Local Open Scope string_scope.

(** The persisted part of [App]'s state. *)
Record Prefs : Type := mkPrefs {
  theme : string;
  calcMethod : string;
  adhanEnabled : bool;
  selectedAdhan : string
}.

(** The lazy initialisers of the [useState] calls. *)
Definition initTheme (storage : Storage) : string :=
  orElse (getItem storage "theme") "light".

Definition initCalcMethod (storage : Storage) : string :=
  orElse (getItem storage "calcMethod") "Egyptian".

(** [localStorage.getItem('adhanEnabled') !== 'false'] *)
Definition initAdhanEnabled (storage : Storage) : bool :=
  match getItem storage "adhanEnabled" with
  | Some s => negb (s =? "false")
  | None => true
  end.

Definition initSelectedAdhan (storage : Storage) : string :=
  orElse (getItem storage "selectedAdhan") "makkah".

(** [localStorage.getItem('isManualLocation') === 'true'] *)
Definition initIsManualLocation (storage : Storage) : bool :=
  match getItem storage "isManualLocation" with
  | Some s => s =? "true"
  | None => false
  end.

Definition init (storage : Storage) : Prefs :=
  {| theme := initTheme storage;
     calcMethod := initCalcMethod storage;
     adhanEnabled := initAdhanEnabled storage;
     selectedAdhan := initSelectedAdhan storage |}.

(** The four persistence effects, in source order. *)
Definition persist (prefs : Prefs) (storage : Storage) : Storage :=
  let storage := setItem storage "theme" (theme prefs) in
  let storage := setItem storage "calcMethod" (calcMethod prefs) in
  let storage := setItem storage "adhanEnabled"
                   (boolToString (adhanEnabled prefs)) in
  setItem storage "selectedAdhan" (selectedAdhan prefs).

(** [toggleTheme]: [prev === 'light' ? 'dark' : 'light'] *)
Definition toggleTheme (prev : string) : string :=
  if prev =? "light" then "dark" else "light".

(** [toggleManualLocation(val)] in [SettingsSection]: the new flag and the
    store after it. *)
Definition toggleManualLocation (val : bool) (storage : Storage)
    : bool * Storage :=
  (val, setItem storage "isManualLocation" (boolToString val)).

(** [activeLocation = isManualLocation ? manualLocation : gpsLocation] *)
Definition activeLocation {A : Type} (isManualLocation : bool)
    (manualLocation gpsLocation : option A) : option A :=
  if isManualLocation then manualLocation else gpsLocation.

End Settings.

(** ** [App]: what was played last *)

Module AdhanLogView.

(** The last key of the log of [playAdhan] calls, if any. *)
Definition lastPlayed (log : list string) : option string :=
  match rev log with
  | [] => None
  | key :: _ => Some key
  end.

(** Two schedules with the same five obligatory instants; sunrise and the
    evaluator's three fields may differ. *)
Definition sameObligatory (a b : Adhan.PrayerTimesResult) : Prop :=
  Adhan.fajr a = Adhan.fajr b /\ Adhan.dhuhr a = Adhan.dhuhr b /\
  Adhan.asr a = Adhan.asr b /\ Adhan.maghrib a = Adhan.maghrib b /\
  Adhan.isha a = Adhan.isha b.

(** A render whose [prayerTimes] is [null] or carries those five
    instants. *)
Definition keepsSchedule (prayerTimes : Adhan.PrayerTimesResult)
    (render : bool * option Adhan.PrayerTimesResult) : Prop :=
  match snd render with
  | None => True
  | Some prayerTimes' => sameObligatory prayerTimes prayerTimes'
  end.

End AdhanLogView.

(** ** [App]: the schedule in use *)

Module PrayerTimesMemo.
Import Js AdhanLib.

Section Memo.

Variable CalculationMethodType : Type.
Variable CalculationParameters : Type.
Variable CalculationMethod : CalculationMethodType -> CalculationParameters.
Variable Egyptian : CalculationMethodType.
Variable solve : Coordinates -> Date -> CalculationParameters -> PrayerTimes.
Variable timeForPrayer : PrayerTimes -> Prayer -> option Date.

(** The [useMemo] callback that computes [prayerTimes]: [null] without an
    active location, else the schedule for [currentTime]. *)
Definition prayerTimes (activeLocation : option Qibla.Location)
    (calcMethod : CalculationMethodType) (currentTime : Date)
    : JS (option Adhan.PrayerTimesResult) :=
  match activeLocation with
  | None => ret None
  | Some location =>
      bind (Adhan.getPrayerTimes CalculationMethodType CalculationParameters
              CalculationMethod Egyptian solve timeForPrayer
              (Qibla.latitude location) (Qibla.longitude location)
              (Some calcMethod) (Some currentTime))
           (fun result => ret (Some result))
  end.

End Memo.

End PrayerTimesMemo.

(** ** [SettingsSection]: looking a city up *)

Module CitySearch.
Import LocalStorage.
Local Open Scope string_scope.

(** One entry of the geocoder's answer, and the answer as the handler sees
    it: the request or its decoding failed, or it decoded to [null] or to
    an array. *)
Record Place : Type := mkPlace {
  lat : string;
  lon : string;
  display_name : string
}.

Inductive Response : Type :=
| Failed
| Json (data : option (list Place)).

(** The request brought back no place. *)
Definition noPlace (response : Response) : Prop :=
  match response with
  | Json (Some (_ :: _)) => False
  | _ => True
  end.

Record ManualLocation : Type := mkManualLocation {
  latitude : R;
  longitude : R;
  city : string
}.

(** The state the handler writes: two fields of [App] and two of
    [SettingsSection]. *)
Record SearchState : Type := mkSearchState {
  isManualLocation : bool;
  manualLocation : option ManualLocation;
  isSearching : bool;
  searchError : option string
}.

Section HandleSearchCity.

(** [String.prototype.trim], [parseFloat] and [JSON.stringify]. *)
Variable trim : string -> string.
Variable parseFloat : string -> R.
Variable stringify : ManualLocation -> string.

(** [handleSearchCity], given what the request comes back with. *)
Definition handleSearchCity (cityInput : string) (response : Response)
    (st : SearchState) (storage : Storage) : SearchState * Storage :=
  if trim cityInput =? "" then (st, storage)
  else
    match response with
    | Json (Some (first :: _)) =>
        let newLocation :=
          {| latitude := parseFloat (lat first);
             longitude := parseFloat (lon first);
             city := display_name first |} in
        let storage := setItem storage "manualLocation" (stringify newLocation) in
        let storage := setItem storage "isManualLocation" "true" in
        ({| isManualLocation := true;
            manualLocation := Some newLocation;
            isSearching := false;
            searchError := None |}, storage)
    | Json _ =>
        ({| isManualLocation := isManualLocation st;
            manualLocation := manualLocation st;
            isSearching := false;
            searchError := Some "City not found" |}, storage)
    | Failed =>
        ({| isManualLocation := isManualLocation st;
            manualLocation := manualLocation st;
            isSearching := false;
            searchError := Some "Error searching city" |}, storage)
    end.

End HandleSearchCity.

End CitySearch.

(** ** [TasbeehSection] *)

Module Tasbeeh.
Local Open Scope Z_scope.

(** [count], [total] and, as a record of [navigator.vibrate], the durations
    it was called with. *)
Record State : Type := mkState {
  count : Z;
  total : Z;
  vibrations : list Z
}.

Definition initial : State := {| count := 0; total := 0; vibrations := [] |}.

(** [canVibrate] is ['vibrate' in navigator]. *)
Definition handleIncrement (canVibrate : bool) (st : State) : State :=
  {| count := count st + 1;
     total := total st + 1;
     vibrations := if canVibrate then vibrations st ++ [50] else vibrations st |}.

Definition handleReset (st : State) : State :=
  {| count := 0; total := total st; vibrations := vibrations st |}.

(** The two buttons. *)
Inductive Button : Type := Tap | Reset.

Definition press (canVibrate : bool) (st : State) (b : Button) : State :=
  match b with
  | Tap => handleIncrement canVibrate st
  | Reset => handleReset st
  end.

Definition session (canVibrate : bool) (presses : list Button) (st : State)
    : State :=
  fold_left (press canVibrate) presses st.

(** How many of the presses were taps. *)
Definition taps (presses : list Button) : nat :=
  List.length
    (filter (fun b => match b with Tap => true | Reset => false end) presses).

End Tasbeeh.

(** ** [ThikrCard] *)

Module Thikr.
Local Open Scope Z_scope.

Record State : Type := mkState {
  count : Z;
  vibrations : list Z
}.

(** [useState(thikr.count)] *)
Definition initial (thikrCount : Z) : State :=
  {| count := thikrCount; vibrations := [] |}.

Definition isDone (st : State) : bool := count st =? 0.

Definition handleDecrement (canVibrate : bool) (st : State) : State :=
  if 0 <? count st then
    {| count := count st - 1;
       vibrations := if canVibrate then vibrations st ++ [30]
                     else vibrations st |}
  else st.

(** [k] presses of the card. *)
Fixpoint presses (canVibrate : bool) (k : nat) (st : State) : State :=
  match k with
  | O => st
  | S k' => presses canVibrate k' (handleDecrement canVibrate st)
  end.

End Thikr.

(** ** [PrayerLog] *)

Module PrayerLog.
Import LocalStorage.
Local Open Scope string_scope.

(** [Record<string, boolean>]: the properties in insertion order. *)
Definition Log : Type := list (string * bool).

(** [log[key]]; [None] is [undefined]. *)
Fixpoint get (log : Log) (key : string) : option bool :=
  match log with
  | [] => None
  | (k, v) :: rest => if k =? key then Some v else get rest key
  end.

(** [{ ...log, [key]: value }]: an existing property keeps its place, a new
    one goes last. *)
Fixpoint set (log : Log) (key : string) (value : bool) : Log :=
  match log with
  | [] => [(key, value)]
  | (k, v) :: rest =>
      if k =? key then (k, value) :: rest else (k, v) :: set rest key value
  end.

Definition truthy (v : option bool) : bool :=
  match v with
  | Some b => b
  | None => false
  end.

(** [`${today}-${prayerId}`] *)
Definition cell (today prayerId : string) : string :=
  today ++ "-" ++ prayerId.

(** [isDone = log[`${today}-${p}`]], as the class names test it. *)
Definition isDone (today : string) (log : Log) (p : string) : bool :=
  truthy (get log (cell today p)).

Section TogglePrayer.

(** [JSON.stringify] *)
Variable stringify : Log -> string.

Definition togglePrayer (today prayerId : string) (log : Log)
    (storage : Storage) : Log * Storage :=
  let key := cell today prayerId in
  let newLog := set log key (negb (truthy (get log key))) in
  (newLog, setItem storage "prayerLog" (stringify newLog)).

(** Successive presses on the same day. *)
Fixpoint toggles (today : string) (ps : list string) (log : Log)
    (storage : Storage) : Log * Storage :=
  match ps with
  | [] => (log, storage)
  | p :: rest =>
      let (log', storage') := togglePrayer today p log storage in
      toggles today rest log' storage'
  end.

End TogglePrayer.

End PrayerLog.

(** ** [QiblaSection]: the device heading *)

Module Compass.
Local Open Scope R_scope.

(** The two fields of a [deviceorientation] event the handler reads;
    [None] is [undefined] or [null]. *)
Record OrientationEvent : Type := mkEvent {
  webkitCompassHeading : option R;
  alpha : option R
}.

(** Truthiness of a number: 0 is falsy. *)
Definition truthy (v : option R) : bool :=
  match v with
  | Some r => if Req_dec_T r 0 then false else true
  | None => false
  end.

Definition valueOf (v : option R) : R :=
  match v with
  | Some r => r
  | None => 0
  end.

(** [handleOrientation]: the heading after the event. *)
Definition handleOrientation (e : OrientationEvent) (heading : R) : R :=
  if truthy (webkitCompassHeading e) then valueOf (webkitCompassHeading e)
  else if truthy (alpha e) then 360 - valueOf (alpha e)
  else heading.

(** The heading after a run of events; [useState(0)] starts it. *)
Definition headingAfter (events : list OrientationEvent) : R :=
  fold_left (fun heading e => handleOrientation e heading) events 0.

(** An event as devices send it: readings in [0, 360). *)
Definition inRange (v : option R) : Prop :=
  match v with
  | Some r => 0 <= r < 360
  | None => True
  end.

Definition wellFormed (e : OrientationEvent) : Prop :=
  inRange (webkitCompassHeading e) /\ inRange (alpha e).

End Compass.

(** ** [QuranSection]: the search box *)

Module Quran.
Local Open Scope string_scope.

(** The fields of a surah the filter and the header read. *)
Record Surah : Type := mkSurah {
  number : Z;
  name : string;
  englishName : string
}.

(** [s.includes(sub)] *)
Fixpoint includes (s sub : string) : bool :=
  prefix sub s ||
  match s with
  | EmptyString => false
  | String _ rest => includes rest sub
  end.

Section Filter.

(** [String.prototype.toLowerCase] *)
Variable toLowerCase : string -> string.

Definition matches (search : string) (s : Surah) : bool :=
  includes (toLowerCase (name s)) (toLowerCase search)
  || includes (toLowerCase (englishName s)) (toLowerCase search).

Definition filteredSurahs (search : string) (surahs : list Surah)
    : list Surah :=
  filter (matches search) surahs.

End Filter.

(** The basmala heads every surah but the first and the ninth. *)
Definition showsBasmala (selectedSurah : Surah) : bool :=
  negb (number selectedSurah =? 1)%Z && negb (number selectedSurah =? 9)%Z.

End Quran.

(** ** Lemmas on the [Math] model *)

Module JsMathFacts.
Import JsMath.
Local Open Scope R_scope.

Lemma Math_atan2_pos (y x : R) : 0 < x -> Math_atan2 y x = atan (y / x).
Proof.
  intros Hx. unfold Math_atan2.
  destruct (total_order_T 0 x) as [[H | H] | H]; try reflexivity; lra.
Qed.

Lemma Math_atan2_origin : Math_atan2 0 0 = 0.
Proof.
  unfold Math_atan2.
  destruct (total_order_T 0 0) as [[H | H] | H]; lra.
Qed.

Lemma Math_atan2_neg (y x : R) :
  x < 0 -> 0 <= y -> Math_atan2 y x = atan (y / x) + PI.
Proof.
  intros Hx Hy. unfold Math_atan2.
  destruct (total_order_T 0 x) as [[H | H] | H]; try lra.
  destruct (Rle_dec 0 y); [reflexivity | lra].
Qed.

Lemma atan_nonpos (t : R) : t <= 0 -> atan t <= 0.
Proof.
  intros [Ht | Ht].
  - left. rewrite <- atan_0. now apply atan_increasing.
  - subst. rewrite atan_0. lra.
Qed.

Lemma atan_pos (t : R) : 0 < t -> 0 < atan t.
Proof. intros Ht. rewrite <- atan_0. now apply atan_increasing. Qed.

(** [Math.atan2] returns an angle in (-PI, PI]. *)
Lemma Math_atan2_bound (y x : R) : - PI < Math_atan2 y x <= PI.
Proof.
  pose proof PI_RGT_0 as Hpi.
  unfold Math_atan2.
  destruct (total_order_T 0 x) as [[Hx | Hx] | Hx].
  - pose proof (atan_bound (y / x)). lra.
  - destruct (total_order_T 0 y) as [[Hy | Hy] | Hy]; lra.
  - pose proof (atan_bound (y / x)) as Hb.
    destruct (Rle_dec 0 y) as [Hy | Hy].
    + assert (atan (y / x) <= 0).
      { apply atan_nonpos. unfold Rdiv.
        assert (/ x < 0) by now apply Rinv_lt_0_compat. nra. }
      lra.
    + assert (0 < atan (y / x)).
      { apply atan_pos. unfold Rdiv.
        assert (/ x < 0) by now apply Rinv_lt_0_compat. nra. }
      lra.
Qed.

End JsMathFacts.

(** ** Truncation, remainder and normalisation *)

Module RemFacts.
Import JsMath Qibla.
Local Open Scope R_scope.

Lemma Int_part_eq (r : R) (z : Z) : IZR z <= r < IZR z + 1 -> Int_part r = z.
Proof. intros H. symmetry. apply Int_part_spec. lra. Qed.

Lemma Int_part_succ (r : R) : Int_part (r + 1) = (Int_part r + 1)%Z.
Proof.
  apply Int_part_eq. rewrite plus_IZR.
  destruct (base_Int_part r). simpl. lra.
Qed.

Lemma trunc_nonneg (r : R) : 0 <= r -> trunc r = Int_part r.
Proof. intros H. unfold trunc. destruct (Rle_dec 0 r); [reflexivity | lra]. Qed.

(** On a non-negative dividend [%] is the mathematical remainder. *)
Lemma rem_range (a b : R) : 0 <= a -> 0 < b -> 0 <= rem a b < b.
Proof.
  intros Ha Hb. unfold rem.
  assert (Hq : 0 <= a / b).
  { unfold Rdiv. apply Rmult_le_pos; [assumption |].
    left. now apply Rinv_0_lt_compat. }
  rewrite (trunc_nonneg _ Hq).
  destruct (base_Int_part (a / b)) as [Hlo Hhi].
  assert (Hab : a = b * (a / b)) by (field; lra).
  set (k := IZR (Int_part (a / b))) in *.
  split; nra.
Qed.

(** Adding one turn before [%] brings any angle above -360 degrees to its
    representative in [0, 360). *)
Lemma rem_plus_turn (q : R) : -360 < q -> rem (q + 360) 360 = normalize360 q.
Proof.
  intros Hq. unfold rem, normalize360.
  assert (Hpos : 0 <= (q + 360) / 360) by lra.
  rewrite (trunc_nonneg _ Hpos).
  replace ((q + 360) / 360) with (q / 360 + 1) by lra.
  rewrite Int_part_succ, plus_IZR. simpl. lra.
Qed.

Lemma normalize360_range (d : R) : 0 <= normalize360 d < 360.
Proof.
  unfold normalize360. destruct (base_Int_part (d / 360)). lra.
Qed.

(** Radians to degrees keeps (-PI, PI] inside (-180, 180]. *)
Lemma degrees_bound (a : R) : - PI < a <= PI -> -180 < degrees a <= 180.
Proof.
  intros [Hlo Hhi]. unfold degrees.
  pose proof PI_RGT_0 as Hpi.
  assert (Ht : 0 < / PI) by now apply Rinv_0_lt_compat.
  assert (Hone : PI * / PI = 1) by (apply Rinv_r; lra).
  unfold Rdiv. set (t := / PI) in *.
  split; nra.
Qed.

End RemFacts.

(** ** The Qibla bearing *)

Module QiblaFacts.
Import JsMath JsMathFacts Qibla RemFacts.
Local Open Scope R_scope.

Lemma qiblaAngle_unfold (lat lon : R) :
  qiblaAngle (Some (mkLocation lat lon)) =
  rem (degrees (Math_atan2 (easting lat lon) (northing lat lon)) + 360) 360.
Proof. reflexivity. Qed.

Lemma qiblaAngle_range (location : option Location) :
  0 <= qiblaAngle location < 360.
Proof.
  destruct location as [[lat lon] |]; [| simpl; lra].
  rewrite qiblaAngle_unfold.
  pose proof (degrees_bound _ (Math_atan2_bound (easting lat lon) (northing lat lon))).
  apply rem_range; lra.
Qed.

(** The angle of the Kaaba's latitude lies strictly inside the first
    quadrant, so its cosine is positive. *)
Lemma kaaba_latitude_quadrant :
  0 < radians kaabaLatitude < PI / 2.
Proof.
  pose proof PI_RGT_0. unfold radians, kaabaLatitude. split; lra.
Qed.

Lemma cos_kaaba_pos : 0 < cos (radians kaabaLatitude).
Proof.
  destruct kaaba_latitude_quadrant. apply cos_gt_0; lra.
Qed.

(** On the Kaaba's meridian the east component vanishes and the north
    component is [sin (phi_k - phi) / cos phi_k]. *)
Lemma easting_meridian (lat : R) : easting lat kaabaLongitude = 0.
Proof.
  unfold easting. rewrite Rminus_diag. apply sin_0.
Qed.

Lemma northing_meridian (lat : R) :
  northing lat kaabaLongitude =
  sin (radians kaabaLatitude - radians lat) / cos (radians kaabaLatitude).
Proof.
  unfold northing. rewrite Rminus_diag, cos_0, sin_minus. unfold tan.
  pose proof cos_kaaba_pos. field. lra.
Qed.

Lemma rem_540 : rem (180 + 360) 360 = 180.
Proof.
  unfold rem. rewrite trunc_nonneg by lra.
  rewrite (Int_part_eq _ 1%Z); simpl; lra.
Qed.

Lemma rem_360 : rem (0 + 360) 360 = 0.
Proof.
  unfold rem. rewrite trunc_nonneg by lra.
  rewrite (Int_part_eq _ 1%Z); simpl; lra.
Qed.

Lemma degrees_PI : degrees PI = 180.
Proof. unfold degrees. field. apply PI_neq0. Qed.

Lemma degrees_0 : degrees 0 = 0.
Proof. unfold degrees. field. apply PI_neq0. Qed.

(** A negative north component with no east component: due south. *)
Lemma bearing_south (lat lon : R) :
  easting lat lon = 0 -> northing lat lon < 0 ->
  qiblaAngle (Some (mkLocation lat lon)) = 180.
Proof.
  intros Hy Hx. rewrite qiblaAngle_unfold, Hy.
  rewrite Math_atan2_neg by lra.
  replace (0 / northing lat lon) with 0 by (field; lra).
  rewrite atan_0, Rplus_0_l, degrees_PI. apply rem_540.
Qed.

(** A positive north component with no east component: due north. *)
Lemma bearing_north (lat lon : R) :
  easting lat lon = 0 -> 0 < northing lat lon ->
  qiblaAngle (Some (mkLocation lat lon)) = 0.
Proof.
  intros Hy Hx. rewrite qiblaAngle_unfold, Hy.
  rewrite Math_atan2_pos by lra.
  replace (0 / northing lat lon) with 0 by (field; lra).
  rewrite atan_0, degrees_0. apply rem_360.
Qed.

Lemma northing_sign_north (lat : R) :
  kaabaLatitude < lat <= 90 -> northing lat kaabaLongitude < 0.
Proof.
  intros [Hlo Hhi]. rewrite northing_meridian.
  pose proof cos_kaaba_pos as Hc. pose proof PI_RGT_0 as Hpi.
  destruct kaaba_latitude_quadrant as [Hk0 Hk1].
  assert (Hs : sin (radians kaabaLatitude - radians lat) < 0).
  { apply sin_lt_0_var; unfold radians in *; nra. }
  unfold Rdiv.
  assert (0 < / cos (radians kaabaLatitude)) by now apply Rinv_0_lt_compat.
  nra.
Qed.

Lemma northing_sign_south (lat : R) :
  -90 <= lat < kaabaLatitude -> 0 < northing lat kaabaLongitude.
Proof.
  intros [Hlo Hhi]. rewrite northing_meridian.
  pose proof cos_kaaba_pos as Hc. pose proof PI_RGT_0 as Hpi.
  destruct kaaba_latitude_quadrant as [Hk0 Hk1].
  assert (Hs : 0 < sin (radians kaabaLatitude - radians lat)).
  { apply sin_gt_0; unfold radians in *; nra. }
  unfold Rdiv.
  assert (0 < / cos (radians kaabaLatitude)) by now apply Rinv_0_lt_compat.
  nra.
Qed.

(** C2.  For an observer at latitude [lat] in [-90, 90] and longitude [lon]
    in [-180, 180], [qiblaAngle] is the initial-bearing formula toward the
    Kaaba -- [atan2] of [sin dlambda] and
    [cos phi * tan phi_k - sin phi * cos dlambda], in degrees, normalised --
    and the value lies in [0, 360). *)
Theorem qiblaAngle_initial_bearing (lat lon : R) :
  -90 <= lat <= 90 -> -180 <= lon <= 180 ->
  qiblaAngle (Some (mkLocation lat lon)) = initialBearing lat lon /\
  0 <= qiblaAngle (Some (mkLocation lat lon)) < 360.
Proof.
  intros _ _. split; [| apply qiblaAngle_range].
  rewrite qiblaAngle_unfold.
  change (initialBearing lat lon)
    with (normalize360 (degrees (Math_atan2 (easting lat lon) (northing lat lon)))).
  apply rem_plus_turn.
  pose proof (degrees_bound _ (Math_atan2_bound (easting lat lon) (northing lat lon))).
  lra.
Qed.

Lemma qiblaAngle_initial_bearing_cairo :
  qiblaAngle (Some (mkLocation 30.0444 31.2357)) = initialBearing 30.0444 31.2357 /\
  0 <= qiblaAngle (Some (mkLocation 30.0444 31.2357)) < 360.
Proof. apply (qiblaAngle_initial_bearing 30.0444 31.2357); lra. Defined.

(** C7.  At the Kaaba's own coordinates both components vanish and
    [Math.atan2(0, 0)] is 0: the bearing returned is the number 0. *)
Theorem qiblaAngle_at_kaaba :
  qiblaAngle (Some (mkLocation kaabaLatitude kaabaLongitude)) = 0.
Proof.
  rewrite qiblaAngle_unfold, easting_meridian, northing_meridian.
  rewrite Rminus_diag, sin_0.
  replace (0 / cos (radians kaabaLatitude)) with 0
    by (field; pose proof cos_kaaba_pos; lra).
  rewrite Math_atan2_origin, degrees_0. apply rem_360.
Qed.

(** C8.  On the Kaaba's meridian, an observer at a latitude above the
    Kaaba's gets the bearing 180 and an observer at a latitude below it gets
    the bearing 0. *)
Theorem qiblaAngle_on_meridian (lat : R) :
  -90 <= lat <= 90 ->
  (kaabaLatitude < lat ->
   qiblaAngle (Some (mkLocation lat kaabaLongitude)) = 180) /\
  (lat < kaabaLatitude ->
   qiblaAngle (Some (mkLocation lat kaabaLongitude)) = 0).
Proof.
  intros [Hlo Hhi]. split; intros H.
  - apply bearing_south; [apply easting_meridian |].
    apply northing_sign_north. lra.
  - apply bearing_north; [apply easting_meridian |].
    apply northing_sign_south. lra.
Qed.

Lemma qiblaAngle_on_meridian_examples :
  qiblaAngle (Some (mkLocation 50 kaabaLongitude)) = 180 /\
  qiblaAngle (Some (mkLocation 0 kaabaLongitude)) = 0.
Proof.
  split.
  - apply (qiblaAngle_on_meridian 50); unfold kaabaLatitude; lra.
  - apply (qiblaAngle_on_meridian 0); unfold kaabaLatitude; lra.
Defined.

Lemma Math_round_0 : Math_round 0 = 0%Z.
Proof. unfold Math_round. apply Int_part_eq. simpl. lra. Qed.

(** C10.  Without a location [qiblaAngle] is 0, the compass is drawn from
    that value (needle at [0 - heading], label 0), and 0 is also the bearing
    of a real place: an observer on the equator under the Kaaba's meridian
    gets the same angle, needle and label. *)
Theorem qiblaAngle_no_location :
  qiblaAngle None = 0 /\
  (forall heading, needleRotation None heading = 0 - heading) /\
  bearingLabel None = 0%Z /\
  (let equator := Some (mkLocation 0 kaabaLongitude) in
   qiblaAngle equator = qiblaAngle None /\
   (forall heading, needleRotation equator heading = needleRotation None heading) /\
   bearingLabel equator = bearingLabel None).
Proof.
  assert (He : qiblaAngle (Some (mkLocation 0 kaabaLongitude)) = 0).
  { apply bearing_north; [apply easting_meridian |].
    apply northing_sign_south. unfold kaabaLatitude. lra. }
  repeat split; try reflexivity.
  - apply Math_round_0.
  - exact He.
  - intros heading. unfold needleRotation. now rewrite He.
  - unfold bearingLabel. now rewrite He.
Qed.

End QiblaFacts.

(** ** The schedule evaluator *)

Module EvaluatorFacts.
Import Js AdhanLib.
Local Open Scope Z_scope.

(** Case analysis on every comparison in the goal. *)
Ltac compare_all :=
  repeat match goal with
  | |- context [?a <=? ?b] => destruct (Z.leb_spec a b)
  | |- context [?a <? ?b] => destruct (Z.ltb_spec a b)
  end; simpl.

Lemma currentAt_beforeAll (pt : PrayerTimes) :
  currentAt pt (beforeAll pt) = NoPrayer.
Proof.
  unfold currentAt, within, beforeAll.
  compare_all; try reflexivity; lia.
Qed.

Lemma currentAt_isha (pt : PrayerTimes) : currentAt pt (isha pt) <> NoPrayer.
Proof.
  unfold currentAt, within.
  compare_all; try discriminate; lia.
Qed.

(** Whatever the schedule, two instants exist at which the evaluator
    answers differently. *)
Lemma currentAt_not_constant (pt : PrayerTimes) :
  currentAt pt (beforeAll pt) <> currentAt pt (isha pt).
Proof.
  rewrite currentAt_beforeAll. intros H. symmetry in H.
  now apply currentAt_isha in H.
Qed.


Ltac solve_first :=
  solve [ split; [simpl; auto 10 | split; [lia |]];
          match goal with Hall : forall t : Date, _ <-> _ |- _ =>
            apply Hall; lia
          end ].

(** On an ordered schedule, before isha, the next prayer is the boundary
    nearest after [now]. *)
Lemma nextAt_first (pt : PrayerTimes) (now : Date) :
  ordered pt -> now < isha pt ->
  exists t, In (nextAt pt now, t) (boundaries pt) /\ now < t /\
    forall q t', In (q, t') (boundaries pt) -> now < t' -> t <= t'.
Proof.
  unfold ordered. intros Hord Hnow.
  assert (Hall : forall (t : Date),
    (forall q t', In (q, t') (boundaries pt) -> now < t' -> t <= t') <->
    (now < fajr pt -> t <= fajr pt) /\ (now < sunrise pt -> t <= sunrise pt) /\
    (now < dhuhr pt -> t <= dhuhr pt) /\ (now < asr pt -> t <= asr pt) /\
    (now < maghrib pt -> t <= maghrib pt) /\ (now < isha pt -> t <= isha pt)).
  { intros t. unfold boundaries. split.
    - intros H. repeat split; intros Hlt;
        match goal with |- _ <= ?f pt =>
          match f with
          | fajr => apply (H Fajr) | sunrise => apply (H Sunrise)
          | dhuhr => apply (H Dhuhr) | asr => apply (H Asr)
          | maghrib => apply (H Maghrib) | isha => apply (H Isha)
          end
        end; simpl; auto 10.
    - intros H q t' Hin Hlt. simpl in Hin.
      destruct Hin as [E | [E | [E | [E | [E | [E | []]]]]]];
        injection E as <- <-; lia. }
  unfold nextAt.
  compare_all; try lia;
    first [ exists (fajr pt); solve_first
          | exists (sunrise pt); solve_first
          | exists (dhuhr pt); solve_first
          | exists (asr pt); solve_first
          | exists (maghrib pt); solve_first
          | exists (isha pt); solve_first ].
Qed.

(** From isha on no prayer is named, on any schedule. *)
Lemma nextAt_none_from_isha (pt : PrayerTimes) (now : Date) :
  isha pt <= now -> nextAt pt now = NoPrayer.
Proof.
  intros Hnow. unfold nextAt.
  destruct (Z.leb_spec (isha pt) now); [reflexivity | lia].
Qed.

(** There the specification's wording names fajr instead, on an ordered
    schedule. *)
Lemma nextBySpec_wraps (pt : PrayerTimes) (now : Date) :
  ordered pt -> isha pt <= now -> nextBySpec pt now = Fajr.
Proof.
  unfold ordered, nextBySpec, boundaries. intros Hord Hnow. simpl.
  compare_all; try reflexivity; lia.
Qed.

End EvaluatorFacts.

(** ** [getPrayerTimes] *)

Module AdhanFacts.
Import Js AdhanLib EvaluatorFacts.
Local Open Scope Z_scope.

Section GetPrayerTimes.

Variable CalculationMethodType : Type.
Variable CalculationParameters : Type.
Variable CalculationMethod : CalculationMethodType -> CalculationParameters.
Variable Egyptian : CalculationMethodType.
Variable solve : Coordinates -> Date -> CalculationParameters -> PrayerTimes.
Variable timeForPrayer : PrayerTimes -> Prayer -> option Date.

Let getPrayerTimes :=
  Adhan.getPrayerTimes CalculationMethodType CalculationParameters
    CalculationMethod Egyptian solve timeForPrayer.

(** With [method] and [date] supplied the call reads the clock three times,
    once per evaluator call. *)
Lemma run_getPrayerTimes latitude longitude method date (clock : Clock) :
  let pt := solve (mkCoordinates latitude longitude) date
              (CalculationMethod method) in
  run (getPrayerTimes latitude longitude (Some method) (Some date)) clock =
  {| Adhan.fajr := fajr pt;
     Adhan.sunrise := sunrise pt;
     Adhan.dhuhr := dhuhr pt;
     Adhan.asr := asr pt;
     Adhan.maghrib := maghrib pt;
     Adhan.isha := isha pt;
     Adhan.current := currentAt pt (clock 0%nat);
     Adhan.next := nextAt pt (clock 1%nat);
     Adhan.timeForNext := timeForPrayer pt (nextAt pt (clock 2%nat)) |}.
Proof. reflexivity. Qed.

(** Whatever the solver computes, two clocks exist under which the same
    four arguments yield different [current] fields. *)
Lemma current_reads_clock latitude longitude method date :
  exists clock1 clock2 : Clock,
    Adhan.current
      (run (getPrayerTimes latitude longitude (Some method) (Some date)) clock1)
    <> Adhan.current
      (run (getPrayerTimes latitude longitude (Some method) (Some date)) clock2).
Proof.
  set (pt := solve (mkCoordinates latitude longitude) date
               (CalculationMethod method)).
  exists (fun _ => beforeAll pt), (fun _ => isha pt).
  rewrite !run_getPrayerTimes. simpl. apply currentAt_not_constant.
Qed.

Lemma not_deterministic (method : CalculationMethodType) :
  ~ Adhan.deterministic CalculationMethodType CalculationParameters
      CalculationMethod Egyptian solve timeForPrayer.
Proof.
  intros Hdet.
  destruct (current_reads_clock 0%R 0%R method 0) as (clock1 & clock2 & Hne).
  apply Hne. unfold getPrayerTimes. now rewrite (Hdet 0%R 0%R method 0 clock1 clock2).
Qed.

(** C1, as the code has it.  For fixed (latitude, longitude, method, date)
    the six instants are the solver's, the same in any two invocations
    whatever the clock shows; [current], [next] and [timeForNext] are the
    evaluator's answers at the first, second and third reading of the clock
    taken during the call. *)
Theorem getPrayerTimes_clock_footprint latitude longitude method date
    (clock1 clock2 : Clock) :
  let pt := solve (mkCoordinates latitude longitude) date
              (CalculationMethod method) in
  let r1 := run (getPrayerTimes latitude longitude (Some method) (Some date))
              clock1 in
  let r2 := run (getPrayerTimes latitude longitude (Some method) (Some date))
              clock2 in
  (Adhan.fajr r1 = Adhan.fajr r2 /\ Adhan.sunrise r1 = Adhan.sunrise r2 /\
   Adhan.dhuhr r1 = Adhan.dhuhr r2 /\ Adhan.asr r1 = Adhan.asr r2 /\
   Adhan.maghrib r1 = Adhan.maghrib r2 /\ Adhan.isha r1 = Adhan.isha r2) /\
  (Adhan.fajr r1 = fajr pt /\ Adhan.sunrise r1 = sunrise pt /\
   Adhan.dhuhr r1 = dhuhr pt /\ Adhan.asr r1 = asr pt /\
   Adhan.maghrib r1 = maghrib pt /\ Adhan.isha r1 = isha pt) /\
  Adhan.current r1 = currentAt pt (clock1 0%nat) /\
  Adhan.next r1 = nextAt pt (clock1 1%nat) /\
  Adhan.timeForNext r1 = timeForPrayer pt (nextAt pt (clock1 2%nat)).
Proof.
  intros pt r1 r2. subst r1 r2. rewrite !run_getPrayerTimes. simpl.
  repeat split; reflexivity.
Qed.

(** C5, as the code has it.  On an ordered schedule, as long as the instant
    [now] at which the evaluator is consulted is before isha, the [next]
    field is the boundary nearest after [now] (strictly later than [now],
    and no later boundary precedes it); from isha on it is [Prayer.None]:
    the answer does not wrap to the next day's fajr. *)
Theorem next_is_first_later_boundary_until_isha latitude longitude method date
    (clock : Clock) :
  let pt := solve (mkCoordinates latitude longitude) date
              (CalculationMethod method) in
  let now := clock 1%nat in
  let r := run (getPrayerTimes latitude longitude (Some method) (Some date))
             clock in
  ordered pt ->
  (now < isha pt ->
   exists t, In (Adhan.next r, t) (boundaries pt) /\ now < t /\
     forall q t', In (q, t') (boundaries pt) -> now < t' -> t <= t') /\
  (isha pt <= now -> Adhan.next r = NoPrayer).
Proof.
  intros pt now r Hord. subst r. rewrite run_getPrayerTimes. simpl.
  fold pt. fold now.
  split.
  - now apply nextAt_first.
  - apply nextAt_none_from_isha.
Qed.


End GetPrayerTimes.

Lemma cairo_ordered : ordered Sample.cairo.
Proof. unfold ordered. simpl. lia. Qed.

(** The determinism claim fails on a concrete run: Cairo, the Egyptian
    method, 1 November 2026, consulted once before fajr and once at dhuhr. *)
Lemma getPrayerTimes_not_deterministic :
  ~ Adhan.deterministic string string (fun key => key) "Egyptian"%string
      Sample.solve Sample.timeForPrayer.
Proof.
  intros Hdet.
  specialize (Hdet 30.0444%R 31.2357%R "Egyptian"%string 1793484000000
                (Sample.stopped 1793484000000)
                (Sample.stopped 1793525940000)).
  apply (f_equal Adhan.current) in Hdet.
  rewrite !run_getPrayerTimes in Hdet. simpl in Hdet. discriminate.
Qed.

(** Cairo at noon: dhuhr has passed and asr is next, well before isha. *)
Lemma next_is_first_later_boundary_until_isha_cairo :
  let r := run (Sample.getPrayerTimes 30.0444%R 31.2357%R
                  (Some "Egyptian"%string) (Some 1793484000000))
               (Sample.stopped 1793527200000) in
  ordered Sample.cairo /\
  exists t, In (Adhan.next r, t) (boundaries Sample.cairo) /\
    1793527200000 < t /\
    forall q t', In (q, t') (boundaries Sample.cairo) ->
                 1793527200000 < t' -> t <= t'.
Proof.
  intros r. split; [exact cairo_ordered |].
  apply (next_is_first_later_boundary_until_isha string string (fun key => key)
           "Egyptian"%string Sample.solve Sample.timeForPrayer
           30.0444%R 31.2357%R "Egyptian"%string 1793484000000
           (Sample.stopped 1793527200000) cairo_ordered).
  unfold Sample.stopped. simpl. lia.
Defined.

(** The wrap fails on a concrete run: Cairo, the Egyptian method, 1 November
    2026, consulted at 23:00, hours after isha.  The [next] field is
    [Prayer.None], where the specification's wording names fajr. *)
Lemma next_does_not_wrap_to_fajr :
  let r := run (Sample.getPrayerTimes 30.0444%R 31.2357%R
                  (Some "Egyptian"%string) (Some 1793484000000))
               (Sample.stopped 1793566800000) in
  isha Sample.cairo <= 1793566800000 /\
  Adhan.next r = NoPrayer /\
  Adhan.next r <> Fajr /\
  nextBySpec Sample.cairo 1793566800000 = Fajr.
Proof.
  intros r. subst r. unfold Sample.getPrayerTimes.
  rewrite run_getPrayerTimes. unfold Sample.stopped. simpl.
  repeat split; try reflexivity; try discriminate.
Qed.


End AdhanFacts.

(** ** The adhan trigger *)

Module TriggerFacts.
Import Js App AdhanLogView.
Local Open Scope Z_scope.
Local Open Scope string_scope.

Lemma eqb_append_l (s a b : string) : (s ++ a =? s ++ b) = (a =? b).
Proof.
  induction s as [| c s IH]; simpl; [reflexivity |].
  now rewrite Ascii.eqb_refl.
Qed.

Lemma differs_same (key : string) : differs (Some key) key = false.
Proof. simpl. now rewrite String.eqb_refl. Qed.

Lemma differs_other (d p q : string) :
  (p =? q) = false ->
  differs (Some (d ++ "-" ++ p)) (d ++ "-" ++ q) = true.
Proof.
  intros H. simpl. rewrite eqb_append_l. simpl. now rewrite H.
Qed.

Section Trigger.

Variable zoneOffset : Z.
Variable dayString : Z -> string.

Let todayKey := todayKey zoneOffset dayString.
Let firstDue := firstDue zoneOffset dayString.
Let minuteOfDay := minuteOfDay zoneOffset.

(** The three ways one turn of the loop can go. *)
Lemma firstDue_fire prayerTimes now last p rest pTime :
  prayerField prayerTimes p = Some pTime ->
  minuteOfDay now = minuteOfDay pTime ->
  differs last (todayKey now p) = true ->
  firstDue prayerTimes now last (p :: rest) = Some (todayKey now p).
Proof.
  intros Hf Hm Hd. unfold firstDue. simpl. rewrite Hf.
  fold minuteOfDay todayKey. rewrite Hm, Z.eqb_refl, Hd. reflexivity.
Qed.

Lemma firstDue_other_minute prayerTimes now last p rest pTime :
  prayerField prayerTimes p = Some pTime ->
  minuteOfDay now <> minuteOfDay pTime ->
  firstDue prayerTimes now last (p :: rest) =
  firstDue prayerTimes now last rest.
Proof.
  intros Hf Hm. unfold firstDue. simpl. rewrite Hf.
  fold minuteOfDay. apply Z.eqb_neq in Hm. now rewrite Hm.
Qed.

Lemma firstDue_already prayerTimes now last p rest pTime :
  prayerField prayerTimes p = Some pTime ->
  differs last (todayKey now p) = false ->
  firstDue prayerTimes now last (p :: rest) =
  firstDue prayerTimes now last rest.
Proof.
  intros Hf Hd. unfold firstDue. simpl. rewrite Hf.
  fold todayKey. rewrite Hd, andb_false_r. reflexivity.
Qed.

(** The loop consults only the five obligatory instants: schedules that
    agree on them trigger alike, whatever their sunrise. *)
Lemma firstDue_ignores_sunrise (pt pt' : Adhan.PrayerTimesResult) now last :
  Adhan.fajr pt = Adhan.fajr pt' -> Adhan.dhuhr pt = Adhan.dhuhr pt' ->
  Adhan.asr pt = Adhan.asr pt' -> Adhan.maghrib pt = Adhan.maghrib pt' ->
  Adhan.isha pt = Adhan.isha pt' ->
  firstDue pt now last prayers = firstDue pt' now last prayers.
Proof.
  intros Hf Hd Ha Hm Hi. unfold firstDue, prayers. simpl.
  now rewrite Hf, Hd, Ha, Hm, Hi.
Qed.

(** A key that fires names one of the five prayers, due in the minute of
    [now], and differs from [lastAdhanPlayed]. *)
Lemma firstDue_sound prayerTimes now last ps key :
  firstDue prayerTimes now last ps = Some key ->
  exists p pTime, In p ps /\ prayerField prayerTimes p = Some pTime /\
    key = todayKey now p /\ minuteOfDay now = minuteOfDay pTime /\
    differs last key = true.
Proof.
  unfold firstDue. induction ps as [| p rest IH]; simpl; [discriminate |].
  destruct (prayerField prayerTimes p) as [pTime |] eqn:Hf.
  - fold minuteOfDay todayKey.
    destruct (minuteOfDay now =? minuteOfDay pTime)%Z eqn:Hm;
    destruct (differs last (todayKey now p)) eqn:Hd; simpl;
      try (intros H; destruct (IH H) as (q & t & Hin & Hrest);
           exists q, t; split; [now right | exact Hrest]).
    intros H. injection H as <-. apply Z.eqb_eq in Hm.
    exists p, pTime. repeat split; auto.
  - intros H. destruct (IH H) as (q & t & Hin & Hrest).
    exists q, t. split; [now right | exact Hrest].
Qed.

End Trigger.

(** *** One schedule with five distinct minutes: every key plays once *)

Section AtMostOnce.

Variable zoneOffset : Z.
Variable dayString : Z -> string.
Variable prayerTimes : Adhan.PrayerTimesResult.
Variable clock : Clock.

Hypothesis Hkeys : keysInjective dayString.
Hypothesis Hdistinct : distinctMinutes zoneOffset prayerTimes.
Hypothesis Hclock : monotone clock.

Let minuteIndex := minuteIndex zoneOffset.
Let firesIn := firesIn zoneOffset dayString prayerTimes.
Let triggerInv := triggerInv zoneOffset dayString prayerTimes.

Lemma minuteOfDay_index (d : Date) :
  minuteOfDay zoneOffset d = minuteIndex d mod 1440.
Proof.
  unfold minuteOfDay, getHours, getMinutes, minuteIndex, App.minuteIndex.
  set (x := d + zoneOffset).
  replace 3600000 with (60000 * 60) by reflexivity.
  rewrite <- Z.div_div by lia.
  replace 1440 with (60 * 24) by reflexivity.
  rewrite Z.rem_mul_r by lia. lia.
Qed.

Lemma localDay_index (d : Date) :
  localDay zoneOffset d = minuteIndex d / 1440.
Proof.
  unfold localDay, minuteIndex, App.minuteIndex.
  now rewrite Z.div_div by lia.
Qed.

Lemma minuteIndex_mono (a b : Date) :
  a <= b -> minuteIndex a <= minuteIndex b.
Proof.
  intros H. unfold minuteIndex, App.minuteIndex.
  apply Z.div_le_mono; lia.
Qed.

(** A key belongs to one minute only. *)
Lemma firesIn_unique key m m' : firesIn key m -> firesIn key m' -> m = m'.
Proof.
  intros (p & t & Hp & Hf & Hk & Hm) (p' & t' & Hp' & Hf' & Hk' & Hm').
  rewrite Hk in Hk'.
  destruct (Hkeys _ _ _ _ Hp Hp' Hk') as [Hd <-].
  rewrite Hf in Hf'. injection Hf' as <-.
  pose proof (Z.div_mod m 1440). pose proof (Z.div_mod m' 1440). lia.
Qed.

(** A minute belongs to one key only. *)
Lemma firesIn_same_minute key key' m :
  firesIn key m -> firesIn key' m -> key = key'.
Proof.
  intros (p & t & Hp & Hf & Hk & Hm) (p' & t' & Hp' & Hf' & Hk' & Hm').
  assert (p = p') as <-.
  { apply (Hdistinct p p' t t'); auto. congruence. }
  congruence.
Qed.

Lemma firstDue_firesIn now last key :
  firstDue zoneOffset dayString prayerTimes now last prayers = Some key ->
  firesIn key (minuteIndex now) /\ last <> Some key.
Proof.
  intros H. apply firstDue_sound in H.
  destruct H as (p & t & Hp & Hf & Hk & Hm & Hd). split.
  - exists p, t. repeat split; auto.
    + rewrite Hk. unfold todayKey, toDateString.
      now rewrite localDay_index.
    + now rewrite <- minuteOfDay_index.
  - intros ->. now rewrite differs_same in Hd.
Qed.

(** Reaching a later minute keeps the invariant. *)
Lemma triggerInv_advance st latest latest' :
  triggerInv st latest -> latest <= latest' -> triggerInv st latest'.
Proof.
  intros (Hnd & Hpast & Hlast) Hle. repeat split; auto.
  - intros key Hin. destruct (Hpast key Hin) as (m & Hm & Hmle).
    exists m. split; [assumption | lia].
  - intros key Hin Hnow. destruct (Hpast key Hin) as (m & Hm & Hmle).
    assert (m = latest') by (eapply firesIn_unique; eassumption).
    apply Hlast; [assumption |].
    replace latest with latest' by lia. assumption.
Qed.

(** Playing a key of the minute just reached keeps the invariant, provided
    the key is not the one remembered. *)
Lemma triggerInv_fire st latest key :
  triggerInv st latest -> firesIn key latest ->
  lastAdhanPlayed st <> Some key ->
  triggerInv {| lastAdhanPlayed := Some key;
                adhanLog := adhanLog st ++ [key] |} latest.
Proof.
  intros (Hnd & Hpast & Hlast) Hkey Hne.
  assert (Hfresh : forall k, In k (adhanLog st) -> firesIn k latest -> False).
  { intros k Hin Hk. apply Hne.
    rewrite (firesIn_same_minute _ _ _ Hkey Hk). now apply Hlast. }
  repeat split; simpl.
  - apply NoDup_app; [assumption | repeat constructor; intros [] |].
    intros k Hin [<- | []]. now apply (Hfresh key).
  - intros k Hin. apply in_app_or in Hin. destruct Hin as [Hin | [<- | []]].
    + apply Hpast, Hin.
    + exists latest. split; [assumption | lia].
  - intros k Hin Hk. apply in_app_or in Hin.
    destruct Hin as [Hin | [<- | []]]; [| reflexivity].
    destruct (Hfresh k Hin Hk).
Qed.

(** The invariant, together with the fact that the clock has not yet
    shown a minute before [latest]. *)
Let reached (st : AdhanState) (n : nat) : Prop :=
  exists latest, triggerInv st latest /\
    forall j, (n <= j)%nat -> latest <= minuteIndex (clock j).

Lemma adhanEffect_reached adhanEnabled schedule st n :
  keepsSchedule prayerTimes (adhanEnabled, schedule) ->
  reached st n ->
  reached (fst (adhanEffect zoneOffset dayString adhanEnabled schedule st clock n))
          (snd (adhanEffect zoneOffset dayString adhanEnabled schedule st clock n)).
Proof.
  intros Hs Hr. unfold adhanEffect.
  destruct adhanEnabled; [| exact Hr].
  destruct schedule as [prayerTimes' |]; [| exact Hr].
  unfold keepsSchedule in Hs. simpl in Hs.
  destruct Hs as (Hf & Hd & Ha & Hm & Hi).
  destruct Hr as (latest & Hinv & Hle).
  unfold bind, newDate.
  rewrite <- (firstDue_ignores_sunrise zoneOffset dayString prayerTimes
                prayerTimes' (clock n) (lastAdhanPlayed st) Hf Hd Ha Hm Hi).
  assert (Hnow : triggerInv st (minuteIndex (clock n))).
  { apply (triggerInv_advance _ latest); auto. }
  assert (Hnext : forall j, (S n <= j)%nat ->
            minuteIndex (clock n) <= minuteIndex (clock j)).
  { intros j Hj. apply minuteIndex_mono, Hclock. lia. }
  destruct (firstDue zoneOffset dayString prayerTimes (clock n)
              (lastAdhanPlayed st) prayers) as [key |] eqn:Hfd; simpl.
  - apply firstDue_firesIn in Hfd. destruct Hfd as [Hkey Hne].
    exists (minuteIndex (clock n)). split; [| exact Hnext].
    now apply triggerInv_fire.
  - exists (minuteIndex (clock n)). split; assumption.
Qed.

Lemma renders_cons adhanEnabled schedule rs st n :
  renders zoneOffset dayString ((adhanEnabled, schedule) :: rs) st clock n =
  renders zoneOffset dayString rs
    (fst (adhanEffect zoneOffset dayString adhanEnabled schedule st clock n))
    clock
    (snd (adhanEffect zoneOffset dayString adhanEnabled schedule st clock n)).
Proof.
  simpl. unfold bind at 1.
  now destruct (adhanEffect zoneOffset dayString adhanEnabled schedule st clock n).
Qed.

Lemma renders_reached rs : forall st n,
  Forall (keepsSchedule prayerTimes) rs ->
  reached st n ->
  reached (fst (renders zoneOffset dayString rs st clock n))
          (snd (renders zoneOffset dayString rs st clock n)).
Proof.
  induction rs as [| [adhanEnabled schedule] rs IH]; intros st n Hrs Hr;
    [exact Hr |].
  inversion Hrs as [| ? ? Hhead Htail]; subst.
  pose proof (adhanEffect_reached adhanEnabled schedule st n Hhead Hr) as Hstep.
  rewrite renders_cons. now apply IH.
Qed.

(** X22.  As long as every render carries the same five obligatory
    instants (or no schedule), these fall in five different minutes of the
    day, and the clock does not run backwards, no key is played twice,
    however many times the effect runs. *)
Lemma adhan_once_when_minutes_distinct rs :
  Forall (keepsSchedule prayerTimes) rs ->
  NoDup (adhanLog (run (renders zoneOffset dayString rs initialState) clock)).
Proof.
  intros Hrs. unfold run.
  assert (Hinit : reached initialState 0%nat).
  { exists (minuteIndex (clock 0%nat)). split.
    - repeat split; simpl; [constructor | intros ? [] | intros ? []].
    - intros j Hj. apply minuteIndex_mono, Hclock. lia. }
  destruct (renders_reached rs _ _ Hrs Hinit) as (latest & (Hnd & _) & _).
  exact Hnd.
Qed.

End AtMostOnce.

(** The hypotheses hold together: the Cairo schedule of 1 November, a
    device on Cairo time, a clock read once a second from midnight on, days
    written in unary. *)
Lemma tally_key_injective (n n' : nat) (p p' : string) :
  Sample.tally n ++ "-" ++ p = Sample.tally n' ++ "-" ++ p' ->
  n = n' /\ p = p'.
Proof.
  revert n'. induction n as [| n IH]; intros [| n']; simpl; intros H.
  - injection H as ->. auto.
  - discriminate.
  - discriminate.
  - injection H as H. destruct (IH n' H) as [-> ->]. auto.
Qed.

Lemma unaryDay_keys : keysInjective Sample.unaryDay.
Proof.
  intros d d' p p' _ _. unfold Sample.unaryDay. simpl. intros H.
  injection H as Hsign Hrest.
  destruct (tally_key_injective _ _ _ _ Hrest) as [Habs ->].
  split; [| reflexivity].
  destruct (Z.ltb_spec d 0), (Z.ltb_spec d' 0); try discriminate; lia.
Qed.

Lemma cairo_distinct_minutes : distinctMinutes Sample.eet Sample.cairoResult.
Proof.
  intros p p' t t' Hp Hp' Ht Ht' Hm. unfold prayers in Hp, Hp'. simpl in Hp, Hp'.
  destruct Hp as [<- | [<- | [<- | [<- | [<- | []]]]]];
  destruct Hp' as [<- | [<- | [<- | [<- | [<- | []]]]]];
    try reflexivity;
    injection Ht as <-; injection Ht' as <-; discriminate Hm.
Qed.

Lemma ticking_monotone (start : Date) : monotone (Sample.ticking start).
Proof. intros i j Hij. unfold Sample.ticking. lia. Qed.

Lemma fajrThenDhuhr_monotone : monotone Sample.fajrThenDhuhr.
Proof.
  intros i j Hij. unfold Sample.fajrThenDhuhr.
  assert (H : AdhanLib.fajr Sample.cairo <= AdhanLib.dhuhr Sample.cairo)
    by (vm_compute; discriminate).
  set (f := AdhanLib.fajr Sample.cairo) in *.
  set (d := AdhanLib.dhuhr Sample.cairo) in *.
  clearbody f d.
  destruct (Nat.ltb_spec i 2), (Nat.ltb_spec j 2); lia.
Qed.

(** A day in Cairo seen twice at fajr and twice at dhuhr, the schedule
    object differing between the two: two keys are played, each once. *)
Lemma adhan_once_cairo :
  let rs := [ (true, Some Sample.cairoAtFajr); (true, Some Sample.cairoAtFajr);
              (true, Some Sample.cairoAtDhuhr); (true, Some Sample.cairoAtDhuhr) ] in
  let st := run (renders Sample.eet Sample.unaryDay rs initialState)
                Sample.fajrThenDhuhr in
  List.length (adhanLog st) = 2%nat /\ NoDup (adhanLog st).
Proof.
  intros rs st. split; [vm_compute; reflexivity |].
  apply (adhan_once_when_minutes_distinct Sample.eet Sample.unaryDay
           Sample.cairoResult Sample.fajrThenDhuhr
           unaryDay_keys cairo_distinct_minutes fajrThenDhuhr_monotone).
  repeat (apply Forall_cons; [repeat split |]). apply Forall_nil.
Defined.

(** C9, at a schedule with fajr and isha in the same minute of the day
    (London, 21 June, fajr at 01:02 and isha at 01:02 of the next day):
    three runs of the effect within the minute 01:02, starting from
    [lastAdhanPlayed = null], call [playAdhan] three times, twice for the
    pair (21 June, fajr). *)
Theorem adhan_replayed_within_minute (dayString : Z -> string) :
  let today := dayString 20625 in
  let render := (true, Some Sample.london) in
  adhanLog
    (run (renders Sample.bst dayString [render; render; render] initialState)
         Sample.londonClock)
  = [ today ++ "-" ++ "fajr"; today ++ "-" ++ "isha"; today ++ "-" ++ "fajr" ].
Proof.
  intros today render.
  assert (Hfajr : forall k last,
    (k < 3)%nat ->
    differs last (today ++ "-" ++ "fajr") = true ->
    App.firstDue Sample.bst dayString Sample.london (Sample.londonClock k)
      last prayers = Some (today ++ "-" ++ "fajr")).
  { intros k last Hk Hd.
    assert (Hcases : k = 0%nat \/ k = 1%nat \/ k = 2%nat) by lia.
    destruct Hcases as [-> | [-> | ->]];
      (unfold prayers;
       erewrite firstDue_fire; [reflexivity | reflexivity | reflexivity |];
       exact Hd). }
  assert (Hisha : forall k,
    (k < 3)%nat ->
    App.firstDue Sample.bst dayString Sample.london (Sample.londonClock k)
      (Some (today ++ "-" ++ "fajr")) prayers = Some (today ++ "-" ++ "isha")).
  { intros k Hk.
    assert (Hcases : k = 0%nat \/ k = 1%nat \/ k = 2%nat) by lia.
    destruct Hcases as [-> | [-> | ->]];
      (unfold prayers;
       erewrite firstDue_already;
         [| reflexivity | apply differs_same];
       erewrite firstDue_other_minute; [| reflexivity | discriminate];
       erewrite firstDue_other_minute; [| reflexivity | discriminate];
       erewrite firstDue_other_minute; [| reflexivity | discriminate];
       erewrite firstDue_fire;
         [reflexivity | reflexivity | reflexivity |];
       now apply differs_other). }
  unfold run, render, renders, adhanEffect, bind, newDate, ret, initialState.
  cbn [fst snd lastAdhanPlayed adhanLog].
  rewrite (Hfajr 0%nat None) by (auto; lia).
  cbn [fst snd lastAdhanPlayed adhanLog].
  rewrite (Hisha 1%nat) by lia.
  cbn [fst snd lastAdhanPlayed adhanLog].
  rewrite (Hfajr 2%nat) by (try lia; now apply differs_other).
  reflexivity.
Qed.

End TriggerFacts.

(** ** Settings across reloads *)

Module SettingsFacts.
Import LocalStorage Settings.
Local Open Scope string_scope.

Lemma getItem_setItem_same (storage : Storage) (key value : string) :
  getItem (setItem storage key value) key = Some value.
Proof. unfold getItem, setItem. now rewrite String.eqb_refl. Qed.

Lemma getItem_setItem_other (storage : Storage) (key key' value : string) :
  key' <> key ->
  getItem (setItem storage key value) key' = getItem storage key'.
Proof.
  intros H. unfold getItem, setItem.
  apply String.eqb_neq in H. now rewrite H.
Qed.

Lemma orElse_some (s dflt : string) : s <> "" -> orElse (Some s) dflt = s.
Proof. intros H. simpl. apply String.eqb_neq in H. now rewrite H. Qed.

(** X1.  Settings survive a reload: once the four persistence effects have
    run, the initialisers read back the same theme, calculation method,
    adhan switch and adhan voice, provided the three strings are not
    empty. *)
Theorem persist_then_init (prefs : Prefs) (storage : Storage) :
  theme prefs <> "" -> calcMethod prefs <> "" -> selectedAdhan prefs <> "" ->
  init (persist prefs storage) = prefs.
Proof.
  destruct prefs as [th cm ae sa]. simpl. intros Hth Hcm Hsa.
  unfold init, persist, initTheme, initCalcMethod, initAdhanEnabled,
    initSelectedAdhan, getItem, setItem. cbn -[orElse].
  rewrite !orElse_some by assumption.
  destruct ae; reflexivity.
Qed.

Lemma persist_then_init_dark :
  let prefs := {| theme := "dark"; calcMethod := "UmmAlQura";
                  adhanEnabled := false; selectedAdhan := "madinah" |} in
  init (persist prefs empty) = prefs.
Proof. intros prefs. apply persist_then_init; discriminate. Defined.

(** X2.  [toggleManualLocation] is read back by the next launch as the
    value it was given, and it disturbs none of the other settings. *)
Theorem toggleManualLocation_reload (val : bool) (storage : Storage) :
  initIsManualLocation (snd (toggleManualLocation val storage)) = val /\
  init (snd (toggleManualLocation val storage)) = init storage.
Proof.
  split.
  - unfold initIsManualLocation, toggleManualLocation.
    cbn [snd]. rewrite getItem_setItem_same. now destruct val.
  - reflexivity.
Qed.

End SettingsFacts.

(** ** Looking a city up *)

Module CitySearchFacts.
Import LocalStorage Settings CitySearch.
Local Open Scope string_scope.

Section HandleSearchCity.

Variable trim : string -> string.
Variable parseFloat : string -> R.
Variable stringify : ManualLocation -> string.

Let handleSearchCity := handleSearchCity trim parseFloat stringify.

(** X3.  A search that brings back no place -- the request failed, or the
    answer was [null] or an empty array -- leaves the saved location, the
    manual flag and the store as they were, and ends with [isSearching] off
    and an error message set.  A search with a blank input changes nothing
    at all, whatever the request would bring back. *)
Theorem search_without_result cityInput response st storage :
  trim cityInput = "" \/ noPlace response ->
  let (st', storage') := handleSearchCity cityInput response st storage in
  manualLocation st' = manualLocation st /\
  isManualLocation st' = isManualLocation st /\
  storage' = storage /\
  (trim cityInput = "" -> st' = st) /\
  (trim cityInput <> "" -> isSearching st' = false /\ searchError st' <> None).
Proof.
  intros Hno. unfold handleSearchCity, CitySearch.handleSearchCity.
  destruct (String.eqb_spec (trim cityInput) "") as [Hblank | Hinput].
  - repeat split; auto; contradiction.
  - destruct Hno as [Hblank | Hno]; [contradiction |].
    destruct response as [| [[| first rest] |]]; simpl in Hno;
      try contradiction; repeat split; auto; try contradiction; discriminate.
Qed.

(** X4.  A search that brings back a place switches to manual mode with
    the first place as the location: it becomes the active location
    whatever the GPS reports, the next launch starts in manual mode, and
    the error message is cleared. *)
Theorem search_with_result cityInput first rest st storage
    (gpsLocation : option ManualLocation) :
  trim cityInput <> "" ->
  let (st', storage') :=
    handleSearchCity cityInput (Json (Some (first :: rest))) st storage in
  let found := {| latitude := parseFloat (lat first);
                  longitude := parseFloat (lon first);
                  city := display_name first |} in
  activeLocation (isManualLocation st') (manualLocation st') gpsLocation
    = Some found /\
  initIsManualLocation storage' = true /\
  getItem storage' "manualLocation" = Some (stringify found) /\
  isSearching st' = false /\ searchError st' = None.
Proof.
  intros Hinput. unfold handleSearchCity, CitySearch.handleSearchCity.
  apply String.eqb_neq in Hinput. rewrite Hinput.
  repeat split; reflexivity.
Qed.

End HandleSearchCity.

(** Instances, with stand-ins for the three library functions: [trim] as
    the identity, [parseFloat] as a constant and [stringify] as the city
    name. *)
Lemma search_without_result_offline :
  let st := {| isManualLocation := false; manualLocation := None;
               isSearching := false; searchError := None |} in
  let (st', storage') :=
    handleSearchCity (fun s => s) (fun _ => 0%R) city "Cairo" Failed st empty in
  manualLocation st' = manualLocation st /\
  isManualLocation st' = isManualLocation st /\
  storage' = empty /\
  ("Cairo" = "" -> st' = st) /\
  ("Cairo" <> "" -> isSearching st' = false /\ searchError st' <> None).
Proof.
  intros st.
  apply (search_without_result (fun s => s) (fun _ => 0%R) city
           "Cairo" Failed st empty).
  right. exact I.
Defined.

Lemma search_with_result_cairo :
  let st := {| isManualLocation := false; manualLocation := None;
               isSearching := false; searchError := Some "City not found" |} in
  let place := {| lat := "30.0444"; lon := "31.2357";
                  display_name := "Cairo, Egypt" |} in
  let (st', storage') :=
    handleSearchCity (fun s => s) (fun _ => 0%R) city "Cairo"
      (Json (Some [place])) st empty in
  let found := {| latitude := 0%R; longitude := 0%R;
                  city := "Cairo, Egypt" |} in
  activeLocation (isManualLocation st') (manualLocation st') None
    = Some found /\
  initIsManualLocation storage' = true /\
  getItem storage' "manualLocation" = Some "Cairo, Egypt" /\
  isSearching st' = false /\ searchError st' = None.
Proof.
  intros st place.
  apply (search_with_result (fun s => s) (fun _ => 0%R) city
           "Cairo" place [] st empty None).
  discriminate.
Defined.

End CitySearchFacts.

(** ** The tally counter *)

Module TasbeehFacts.
Import Tasbeeh.
Local Open Scope Z_scope.

Lemma session_snoc canVibrate presses b st :
  session canVibrate (presses ++ [b]) st =
  press canVibrate (session canVibrate presses st) b.
Proof. unfold session. now rewrite fold_left_app. Qed.

Lemma taps_snoc presses b :
  taps (presses ++ [b]) =
  (taps presses + match b with Tap => 1 | Reset => 0 end)%nat.
Proof.
  unfold taps. rewrite filter_app, length_app. now destruct b.
Qed.

(** X5.  Whatever is pressed, in whatever order, the visible count is never
    negative and never exceeds the total. *)
Theorem count_within_total canVibrate presses :
  let st := session canVibrate presses initial in
  0 <= count st <= total st.
Proof.
  induction presses as [| b presses IH] using rev_ind; simpl.
  - unfold session. simpl. lia.
  - rewrite session_snoc. destruct b; simpl in *; lia.
Qed.

(** X6.  The total counts every tap since the section was opened and is
    untouched by resets; on a device that vibrates, each tap buzzed for 50
    ms and nothing else did. *)
Theorem total_counts_taps canVibrate presses :
  let st := session canVibrate presses initial in
  total st = Z.of_nat (taps presses) /\
  vibrations st = if canVibrate then repeat 50 (taps presses) else [].
Proof.
  induction presses as [| b presses IH] using rev_ind; simpl.
  - unfold session. simpl. now destruct canVibrate.
  - rewrite session_snoc, taps_snoc. destruct IH as [IHt IHv].
    destruct b; simpl; rewrite IHt, IHv.
    + split; [lia |]. destruct canVibrate; [| reflexivity].
      rewrite Nat.add_1_r. simpl. now rewrite repeat_cons.
    + rewrite Nat.add_0_r. now split.
Qed.

(** X7.  The count shows the taps made since the last reset: after any
    presses, a reset and then [n] taps, it reads [n]. *)
Theorem count_since_reset canVibrate before (n : nat) st :
  count (session canVibrate (before ++ Reset :: repeat Tap n) st)
  = Z.of_nat n.
Proof.
  assert (Hgen : forall m s,
            count (fold_left (press canVibrate) (repeat Tap m) s)
            = count s + Z.of_nat m).
  { induction m as [| m IH]; intros s; [simpl; lia |].
    cbn [repeat fold_left]. rewrite IH. cbn [press handleIncrement count]. lia. }
  unfold session. rewrite fold_left_app. cbn [fold_left press].
  rewrite Hgen. reflexivity.
Qed.

End TasbeehFacts.

(** ** The remembrance cards *)

Module ThikrFacts.
Import Thikr.
Local Open Scope Z_scope.

Lemma presses_count canVibrate (k : nat) : forall st,
  count (presses canVibrate k st)
  = Z.max (Z.min (count st) 0) (count st - Z.of_nat k).
Proof.
  induction k as [| k IH]; intros st.
  - simpl. lia.
  - cbn [presses]. rewrite IH. unfold handleDecrement.
    destruct (Z.ltb_spec 0 (count st)); simpl; lia.
Qed.

(** X8.  A card that starts at [n], not negative, shows [max (n - k) 0]
    after [k] presses: the count never goes below zero, and the card is
    done exactly from the [n]-th press on. *)
Theorem card_after_presses canVibrate (n : Z) (k : nat) :
  0 <= n ->
  let st := presses canVibrate k (initial n) in
  count st = Z.max (n - Z.of_nat k) 0 /\ isDone st = (n <=? Z.of_nat k).
Proof.
  intros Hn st. subst st. unfold isDone. rewrite presses_count. simpl.
  split; [lia |].
  destruct (Z.leb_spec n (Z.of_nat k)); [apply Z.eqb_eq | apply Z.eqb_neq]; lia.
Qed.

Lemma card_after_presses_three :
  let st := presses false 5 (initial 3) in
  count st = Z.max (3 - Z.of_nat 5) 0 /\ isDone st = (3 <=? Z.of_nat 5).
Proof. apply (card_after_presses false 3 5). lia. Defined.

Lemma presses_vibrations (k : nat) : forall st,
  0 <= count st ->
  vibrations (presses true k st)
  = vibrations st ++ repeat 30 (Nat.min k (Z.to_nat (count st))).
Proof.
  induction k as [| k IH]; intros st Hst.
  - simpl. now rewrite app_nil_r.
  - cbn [presses]. unfold handleDecrement.
    destruct (Z.ltb_spec 0 (count st)) as [Hpos | Hzero].
    + rewrite IH by (simpl; lia). simpl.
      replace (Z.to_nat (count st)) with (S (Z.to_nat (count st - 1))) by lia.
      simpl. now rewrite <- app_assoc.
    + rewrite IH by assumption.
      replace (Z.to_nat (count st)) with 0%nat by lia.
      now rewrite !Nat.min_0_r.
Qed.

(** X9.  On a device that vibrates, a card that starts at [n] buzzes once
    (30 ms) for each press that lowers the count and not at all for
    presses made after it is done: [min k n] times after [k] presses. *)
Theorem card_vibrations (n : Z) (k : nat) :
  0 <= n ->
  vibrations (presses true k (initial n))
  = repeat 30 (Nat.min k (Z.to_nat n)).
Proof.
  intros Hn. now rewrite presses_vibrations.
Qed.

Lemma card_vibrations_three :
  vibrations (presses true 5 (initial 3)) = repeat 30 (Nat.min 5 (Z.to_nat 3)).
Proof. apply card_vibrations. lia. Defined.

End ThikrFacts.

(** ** The prayer tracker *)

Module PrayerLogFacts.
Import LocalStorage PrayerLog.
Local Open Scope string_scope.

Lemma get_set_same (log : Log) (key : string) (value : bool) :
  get (set log key value) key = Some value.
Proof.
  induction log as [| [k v] rest IH]; simpl.
  - now rewrite String.eqb_refl.
  - destruct (String.eqb_spec k key) as [-> | Hk]; simpl.
    + now rewrite String.eqb_refl.
    + apply String.eqb_neq in Hk. now rewrite Hk.
Qed.

Lemma get_set_other (log : Log) (key key' : string) (value : bool) :
  key' <> key -> get (set log key value) key' = get log key'.
Proof.
  intros Hne. induction log as [| [k v] rest IH]; simpl.
  - apply not_eq_sym, String.eqb_neq in Hne. now rewrite Hne.
  - destruct (String.eqb_spec k key) as [-> | Hk]; simpl.
    + apply not_eq_sym, String.eqb_neq in Hne. now rewrite Hne.
    + now rewrite IH.
Qed.

(** Keys of days written at the same length name one day and one prayer. *)
Lemma cell_injective (d d' p q : string) :
  String.length d = String.length d' -> cell d p = cell d' q ->
  d = d' /\ p = q.
Proof.
  unfold cell. revert d'.
  induction d as [| c d IH]; intros [| c' d']; simpl; try discriminate.
  - intros _ H. injection H as ->. auto.
  - intros Hlen H. injection Hlen as Hlen. injection H as -> H.
    destruct (IH d' Hlen H) as [-> ->]. auto.
Qed.

Section TogglePrayer.

Variable stringify : Log -> string.

Let togglePrayer := togglePrayer stringify.
Let toggles := toggles stringify.

Lemma isDone_toggle_same today p log storage :
  isDone today (fst (togglePrayer today p log storage)) p
  = negb (isDone today log p).
Proof. unfold isDone. simpl. now rewrite get_set_same. Qed.

Lemma isDone_toggle_other today p log storage d q :
  cell d q <> cell today p ->
  isDone d (fst (togglePrayer today p log storage)) q = isDone d log q.
Proof. intros H. unfold isDone. simpl. now rewrite get_set_other. Qed.

(** X10.  Pressing a prayer flips its mark for today and changes no other
    mark: not another prayer's, and not any prayer's on another day (days
    being written at one length, as ISO dates are). *)
Theorem toggle_flips_one_mark today p log storage d q :
  String.length d = String.length today -> (d, q) <> (today, p) ->
  let log' := fst (togglePrayer today p log storage) in
  isDone today log' p = negb (isDone today log p) /\
  isDone d log' q = isDone d log q.
Proof.
  intros Hlen Hne log'. split.
  - apply isDone_toggle_same.
  - apply isDone_toggle_other. intros Hcell.
    destruct (cell_injective _ _ _ _ Hlen Hcell) as [-> ->]. now apply Hne.
Qed.

(** X11.  Pressing the same prayer twice leaves every mark as it was. *)
Theorem toggle_twice today p log storage d q :
  let (log1, storage1) := togglePrayer today p log storage in
  let log2 := fst (togglePrayer today p log1 storage1) in
  isDone d log2 q = isDone d log q.
Proof.
  unfold togglePrayer, PrayerLog.togglePrayer, isDone. cbn [fst].
  destruct (string_dec (cell d q) (cell today p)) as [-> | Hne].
  - rewrite !get_set_same. simpl. now rewrite negb_involutive.
  - now rewrite !get_set_other.
Qed.

Lemma toggles_cons today p rest log storage :
  toggles today (p :: rest) log storage =
  toggles today rest (fst (togglePrayer today p log storage))
                     (snd (togglePrayer today p log storage)).
Proof. reflexivity. Qed.

(** X12.  After any run of presses made on one day, a prayer's mark is its
    earlier mark flipped once per press on that prayer: it differs from
    the earlier one exactly when the prayer was pressed an odd number of
    times. *)
Theorem mark_parity today (ps : list string) p : forall log storage,
  isDone today (fst (toggles today ps log storage)) p
  = xorb (isDone today log p) (Nat.odd (count_occ string_dec ps p)).
Proof.
  induction ps as [| a rest IH]; intros log storage.
  - simpl. now rewrite xorb_false_r.
  - rewrite toggles_cons, IH. cbn [count_occ].
    destruct (string_dec a p) as [-> | Hne].
    + rewrite isDone_toggle_same, Nat.odd_succ, <- Nat.negb_odd.
      now destruct (isDone today log p), (Nat.odd (count_occ string_dec rest p)).
    + rewrite isDone_toggle_other; [reflexivity |].
      intros Hcell. apply Hne.
      now destruct (cell_injective _ _ _ _ eq_refl Hcell).
Qed.

(** X13.  After at least one press the store holds, under ['prayerLog'],
    the serialisation of the log now in memory; no other key of the store
    was written. *)
Theorem store_follows_log today (ps : list string) : forall log storage,
  ps <> [] ->
  let (log', storage') := toggles today ps log storage in
  getItem storage' "prayerLog" = Some (stringify log') /\
  forall key, key <> "prayerLog" -> getItem storage' key = getItem storage key.
Proof.
  induction ps as [| a rest IH]; intros log storage Hne; [contradiction |].
  rewrite toggles_cons.
  destruct rest as [| b rest'].
  - simpl. split.
    + unfold getItem, setItem. now rewrite String.eqb_refl.
    + intros key Hkey. unfold getItem, setItem.
      apply String.eqb_neq in Hkey. now rewrite Hkey.
  - specialize (IH (fst (togglePrayer today a log storage))
                   (snd (togglePrayer today a log storage))).
    destruct (toggles today (b :: rest') _ _) as [log' storage'].
    destruct IH as [Hlog Hother]; [discriminate |].
    split; [exact Hlog |].
    intros key Hkey. rewrite (Hother key Hkey). simpl.
    unfold getItem, setItem. apply String.eqb_neq in Hkey. now rewrite Hkey.
Qed.

End TogglePrayer.

(** Instances on 1 November 2026, with the list of keys standing in for
    the serialisation. *)
Lemma toggle_flips_one_mark_fajr :
  let log' := fst (togglePrayer Sample.keysOf "2026-11-01" "fajr" [] empty) in
  isDone "2026-11-01" log' "fajr" = negb (isDone "2026-11-01" [] "fajr") /\
  isDone "2026-10-31" log' "fajr" = isDone "2026-10-31" [] "fajr".
Proof.
  apply (toggle_flips_one_mark Sample.keysOf "2026-11-01" "fajr" [] empty
           "2026-10-31" "fajr").
  - reflexivity.
  - discriminate.
Defined.

Lemma store_follows_log_two :
  let (log', storage') :=
    toggles Sample.keysOf "2026-11-01" ["fajr"; "asr"] [] empty in
  getItem storage' "prayerLog" = Some (Sample.keysOf log') /\
  forall key, key <> "prayerLog" -> getItem storage' key = getItem empty key.
Proof.
  apply (store_follows_log Sample.keysOf "2026-11-01" ["fajr"; "asr"] [] empty).
  discriminate.
Defined.

End PrayerLogFacts.

(** ** The compass *)

Module CompassFacts.
Import JsMath Qibla Compass RemFacts QiblaFacts.
Local Open Scope R_scope.

Lemma truthy_value (v : option R) :
  truthy v = true -> inRange v -> 0 < valueOf v < 360.
Proof.
  destruct v as [r |]; simpl; [| discriminate].
  destruct (Req_dec_T r 0); [discriminate |]. intros _ H. lra.
Qed.

Lemma handleOrientation_range (e : OrientationEvent) (heading : R) :
  wellFormed e -> 0 <= heading < 360 ->
  0 <= handleOrientation e heading < 360.
Proof.
  intros [Hw Ha] Hh. unfold handleOrientation.
  destruct (truthy (webkitCompassHeading e)) eqn:Tw.
  - pose proof (truthy_value _ Tw Hw). lra.
  - destruct (truthy (alpha e)) eqn:Ta; [| exact Hh].
    pose proof (truthy_value _ Ta Ha). lra.
Qed.

(** Readings in range keep any heading in range. *)
Lemma headings_stay_in_range (events : list OrientationEvent) : forall heading,
  Forall wellFormed events -> 0 <= heading < 360 ->
  0 <= fold_left (fun h e => handleOrientation e h) events heading < 360.
Proof.
  induction events as [| e events IH]; intros heading Hall Hh; [exact Hh |].
  inversion Hall; subst. simpl. apply IH; [assumption |].
  now apply handleOrientation_range.
Qed.

(** X14.  Fed with readings in [0, 360), the heading stays within
    [0, 360] through any run of orientation events.  (The upper end is
    kept in the statement: [360 - alpha] is below 360 in exact arithmetic
    but rounds to 360 in doubles when [alpha] is tiny.) *)
Theorem heading_in_range (events : list OrientationEvent) :
  Forall wellFormed events -> 0 <= headingAfter events <= 360.
Proof.
  intros Hall. unfold headingAfter.
  assert (0 <= fold_left (fun h e => handleOrientation e h) events 0 < 360).
  { apply headings_stay_in_range; [exact Hall | lra]. }
  lra.
Qed.

Lemma heading_in_range_quarter_turn :
  0 <= headingAfter [ {| webkitCompassHeading := None; alpha := Some 90 |} ]
    <= 360.
Proof.
  apply heading_in_range. repeat constructor; simpl; lra.
Defined.

(** X15.  A reading of exactly 0 is taken for a missing one: no event with
    readings in [0, 360) can set the heading to 0, so a heading of 0 after
    an event was already there before it. *)
Theorem heading_zero_only_kept (e : OrientationEvent) (heading : R) :
  wellFormed e -> handleOrientation e heading = 0 -> heading = 0.
Proof.
  intros [Hw Ha]. unfold handleOrientation.
  destruct (truthy (webkitCompassHeading e)) eqn:Tw.
  - pose proof (truthy_value _ Tw Hw). lra.
  - destruct (truthy (alpha e)) eqn:Ta; [| auto].
    pose proof (truthy_value _ Ta Ha). lra.
Qed.

Lemma heading_zero_only_kept_north :
  let north := {| webkitCompassHeading := Some 0; alpha := Some 0 |} in
  wellFormed north /\ handleOrientation north 0 = 0 /\ (0 : R) = 0.
Proof.
  intros north.
  assert (Hw : wellFormed north) by (split; simpl; lra).
  assert (Hz : handleOrientation north 0 = 0).
  { unfold handleOrientation, north. simpl.
    destruct (Req_dec_T 0 0); [reflexivity | lra]. }
  split; [exact Hw | split; [exact Hz |]].
  exact (heading_zero_only_kept north 0 Hw Hz).
Defined.

(** X16.  With such readings the needle's rotation [qiblaAngle - heading]
    is at least -360 and below 360 degrees, with a location or without
    one.  (The lower end is kept in the statement, as the heading can
    round to 360 in doubles.) *)
Theorem needle_rotation_bound (location : option Location)
    (events : list OrientationEvent) :
  Forall wellFormed events ->
  -360 <= needleRotation location (headingAfter events) < 360.
Proof.
  intros Hall. unfold needleRotation.
  pose proof (qiblaAngle_range location).
  assert (0 <= headingAfter events < 360).
  { unfold headingAfter. apply headings_stay_in_range; [exact Hall | lra]. }
  lra.
Qed.

Lemma needle_rotation_bound_quarter_turn :
  -360 <= needleRotation None
            (headingAfter [ {| webkitCompassHeading := None; alpha := Some 90 |} ])
       < 360.
Proof.
  apply needle_rotation_bound. repeat constructor; simpl; lra.
Defined.

End CompassFacts.

(** ** More on the Qibla bearing *)

Module QiblaDirectionFacts.
Import JsMath JsMathFacts Qibla RemFacts QiblaFacts.
Local Open Scope R_scope.

(** [Math.atan2] takes the sign of its first argument. *)
Lemma Math_atan2_upper (y x : R) : 0 < y -> 0 < Math_atan2 y x < PI.
Proof.
  intros Hy. pose proof PI_RGT_0 as Hpi. unfold Math_atan2.
  destruct (total_order_T 0 x) as [[Hx | Hx] | Hx].
  - pose proof (atan_bound (y / x)).
    assert (0 < atan (y / x)).
    { apply atan_pos. unfold Rdiv.
      assert (0 < / x) by now apply Rinv_0_lt_compat. nra. }
    lra.
  - destruct (total_order_T 0 y) as [[H | H] | H]; lra.
  - destruct (Rle_dec 0 y); [| lra].
    pose proof (atan_bound (y / x)).
    assert (atan (y / x) < 0).
    { rewrite <- atan_0. apply atan_increasing. unfold Rdiv.
      assert (/ x < 0) by now apply Rinv_lt_0_compat. nra. }
    lra.
Qed.

Lemma Math_atan2_odd (y x : R) :
  y <> 0 -> Math_atan2 (- y) x = - Math_atan2 y x.
Proof.
  intros Hy. unfold Math_atan2.
  destruct (total_order_T 0 x) as [[Hx | Hx] | Hx].
  - replace (- y / x) with (- (y / x)) by (field; lra). apply atan_opp.
  - destruct (total_order_T 0 y) as [[H | H] | H];
    destruct (total_order_T 0 (- y)) as [[H' | H'] | H']; lra.
  - replace (- y / x) with (- (y / x)) by (field; lra). rewrite atan_opp.
    destruct (Rle_dec 0 y), (Rle_dec 0 (- y)); lra.
Qed.

Lemma rem_second_turn (q : R) : 0 <= q < 360 -> rem (q + 360) 360 = q.
Proof.
  intros Hq. unfold rem. rewrite trunc_nonneg by lra.
  rewrite (Int_part_eq _ 1%Z); simpl; lra.
Qed.

Lemma rem_first_turn (q : R) : -360 < q < 0 -> rem (q + 360) 360 = q + 360.
Proof.
  intros Hq. unfold rem. rewrite trunc_nonneg by lra.
  rewrite (Int_part_eq _ 0%Z); simpl; lra.
Qed.

Lemma degrees_upper (a : R) : 0 < a < PI -> 0 < degrees a < 180.
Proof.
  intros [Hlo Hhi]. unfold degrees.
  pose proof PI_RGT_0 as Hpi.
  assert (Ht : 0 < / PI) by now apply Rinv_0_lt_compat.
  assert (Hone : PI * / PI = 1) by (apply Rinv_r; lra).
  unfold Rdiv. set (t := / PI) in *.
  split; nra.
Qed.

Lemma degrees_opp (a : R) : degrees (- a) = - degrees a.
Proof. unfold degrees. field. apply PI_neq0. Qed.

(** An observer less than half a turn west of the Kaaba's meridian has a
    positive east component. *)
Lemma easting_west (lat lon : R) :
  kaabaLongitude - 180 < lon < kaabaLongitude -> 0 < easting lat lon.
Proof.
  intros [Hlo Hhi]. unfold easting. pose proof PI_RGT_0.
  apply sin_gt_0; unfold radians; nra.
Qed.

Lemma bearing_of_west (lat lon : R) :
  kaabaLongitude - 180 < lon < kaabaLongitude ->
  qiblaAngle (Some (mkLocation lat lon))
  = degrees (Math_atan2 (easting lat lon) (northing lat lon)) /\
  0 < degrees (Math_atan2 (easting lat lon) (northing lat lon)) < 180.
Proof.
  intros Hlon. rewrite qiblaAngle_unfold.
  pose proof (degrees_upper _
    (Math_atan2_upper _ (northing lat lon) (easting_west lat lon Hlon))) as Hd.
  split; [apply rem_second_turn; lra | exact Hd].
Qed.

(** X17.  An observer west of the Kaaba's meridian, by less than 180
    degrees of longitude, is sent eastward: the bearing lies strictly
    between 0 and 180, at every latitude. *)
Theorem qibla_points_east (lat lon : R) :
  kaabaLongitude - 180 < lon < kaabaLongitude ->
  0 < qiblaAngle (Some (mkLocation lat lon)) < 180.
Proof.
  intros Hlon. destruct (bearing_of_west lat lon Hlon) as [-> H]. exact H.
Qed.

Lemma qibla_points_east_cairo :
  0 < qiblaAngle (Some (mkLocation 30.0444 31.2357)) < 180.
Proof. apply qibla_points_east. unfold kaabaLongitude. lra. Defined.

(** X18.  Two observers at one latitude, the same distance east and west
    of the Kaaba's meridian (less than 180 degrees), get mirrored bearings:
    the two add up to 360, so the eastern observer is sent westward, between
    180 and 360. *)
Theorem qibla_mirror (lat d : R) :
  0 < d < 180 ->
  qiblaAngle (Some (mkLocation lat (kaabaLongitude + d)))
  = 360 - qiblaAngle (Some (mkLocation lat (kaabaLongitude - d))) /\
  180 < qiblaAngle (Some (mkLocation lat (kaabaLongitude + d))) < 360.
Proof.
  intros Hd.
  assert (Hwest : kaabaLongitude - 180 < kaabaLongitude - d < kaabaLongitude)
    by lra.
  destruct (bearing_of_west lat _ Hwest) as [Hq Hrange].
  pose proof (easting_west lat _ Hwest) as Hy.
  assert (He : easting lat (kaabaLongitude + d)
               = - easting lat (kaabaLongitude - d)).
  { unfold easting. rewrite <- sin_neg. f_equal. unfold radians. lra. }
  assert (Hn : northing lat (kaabaLongitude + d)
               = northing lat (kaabaLongitude - d)).
  { unfold northing. f_equal. f_equal. rewrite <- cos_neg. f_equal.
    unfold radians. lra. }
  assert (Heast : qiblaAngle (Some (mkLocation lat (kaabaLongitude + d)))
                  = 360 - qiblaAngle (Some (mkLocation lat (kaabaLongitude - d)))).
  { rewrite Hq, (qiblaAngle_unfold lat (kaabaLongitude + d)), He, Hn.
    rewrite Math_atan2_odd by lra. rewrite degrees_opp.
    rewrite rem_first_turn by lra. lra. }
  split; [exact Heast |]. rewrite Heast, Hq. lra.
Qed.

Lemma qibla_mirror_ten_degrees :
  qiblaAngle (Some (mkLocation 0 (kaabaLongitude + 10)))
  = 360 - qiblaAngle (Some (mkLocation 0 (kaabaLongitude - 10))) /\
  180 < qiblaAngle (Some (mkLocation 0 (kaabaLongitude + 10))) < 360.
Proof. apply qibla_mirror. lra. Defined.

Lemma bearingLabel_bounds (location : option Location) :
  (0 <= bearingLabel location <= 360)%Z.
Proof.
  unfold bearingLabel, Math_round.
  pose proof (qiblaAngle_range location) as Hq.
  destruct (base_Int_part (qiblaAngle location + / 2)) as [Hlo Hhi].
  split.
  - assert (Hz : (-1 < Int_part (qiblaAngle location + / 2))%Z).
    { apply lt_IZR. lra. }
    lia.
  - apply Z.lt_succ_r. apply lt_IZR. simpl. lra.
Qed.

Lemma tan_below_one (a : R) : 0 < a < PI / 4 -> 0 < tan a < 1.
Proof.
  intros [Hlo Hhi]. pose proof PI_RGT_0. split.
  - apply tan_gt_0; lra.
  - rewrite <- tan_PI4. apply tan_increasing; lra.
Qed.

Lemma degrees_radians (x : R) : degrees (radians x) = x.
Proof. unfold degrees, radians. field. apply PI_neq0. Qed.

Lemma radians_degrees (a : R) : radians (degrees a) = a.
Proof. unfold degrees, radians. field. apply PI_neq0. Qed.

(** An observer on the equator, a little east of the Kaaba's meridian,
    whose bearing is a quarter of a degree short of the full turn. *)
Lemma bearing_quarter_degree_west_of_north :
  let c := tan (radians kaabaLatitude) * tan (radians (/ 4)) in
  let lon := kaabaLongitude + degrees (asin c) in
  kaabaLongitude < lon < kaabaLongitude + 90 /\
  qiblaAngle (Some (mkLocation 0 lon)) = 360 - / 4.
Proof.
  intros c lon. pose proof PI_RGT_0 as Hpi.
  destruct kaaba_latitude_quadrant as [Hk0 Hk1].
  assert (Hk : 0 < tan (radians kaabaLatitude) < 1).
  { apply tan_below_one. unfold radians, kaabaLatitude in *. lra. }
  assert (Hq : 0 < radians (/ 4) < PI / 4) by (unfold radians; lra).
  assert (Ht : 0 < tan (radians (/ 4)) < 1) by now apply tan_below_one.
  assert (Hc : 0 < c < 1) by (unfold c; nra).
  assert (Hsin : sin (asin c) = c) by (apply sin_asin; lra).
  assert (Hb : - (PI / 2) < asin c < PI / 2) by (apply asin_bound_lt; lra).
  assert (Ha : 0 < asin c).
  { destruct (Rlt_le_dec 0 (asin c)) as [H | [H | H]]; [exact H | |].
    - pose proof (sin_lt_0_var (asin c)). lra.
    - rewrite H, sin_0 in Hsin. lra. }
  assert (Hd : 0 < degrees (asin c) < 90).
  { unfold degrees.
    assert (Hinv : 0 < / PI) by now apply Rinv_0_lt_compat.
    assert (Hone : PI * / PI = 1) by (apply Rinv_r; lra).
    unfold Rdiv. set (t := / PI) in *. split; nra. }
  split; [unfold lon; lra |].
  assert (Hy : easting 0 lon = - c).
  { unfold easting, lon.
    replace (radians kaabaLongitude - radians (kaabaLongitude + degrees (asin c)))
      with (- radians (degrees (asin c))) by (unfold radians; lra).
    now rewrite radians_degrees, sin_neg, Hsin. }
  assert (Hx : northing 0 lon = tan (radians kaabaLatitude)).
  { unfold northing.
    replace (radians 0) with 0 by (unfold radians; lra).
    rewrite cos_0, sin_0. lra. }
  rewrite qiblaAngle_unfold, Hy, Hx.
  rewrite Math_atan2_pos by lra.
  replace (- c / tan (radians kaabaLatitude)) with (- tan (radians (/ 4)))
    by (unfold c; field; lra).
  rewrite atan_opp, atan_tan by lra.
  rewrite degrees_opp, degrees_radians.
  rewrite rem_first_turn by lra. lra.
Qed.

(** X19.  The label under the compass, [Math.round(qiblaAngle)], is a
    whole number from 0 to 360, and 360 is reached: it is not reduced to
    0.  An observer on the equator, less than 90 degrees east of the
    Kaaba's meridian, reads 360. *)
Theorem bearingLabel_range :
  (forall location, (0 <= bearingLabel location <= 360)%Z) /\
  exists location,
    latitude location = 0 /\
    kaabaLongitude < longitude location < kaabaLongitude + 90 /\
    bearingLabel (Some location) = 360%Z.
Proof.
  split; [apply bearingLabel_bounds |].
  destruct bearing_quarter_degree_west_of_north as [Hlon Hq].
  eexists (mkLocation 0 _). split; [reflexivity |]. split; [exact Hlon |].
  unfold bearingLabel, Math_round. rewrite Hq.
  apply Int_part_eq. simpl. lra.
Qed.

End QiblaDirectionFacts.

(** ** The surah search *)

Module QuranFacts.
Import Quran.
Local Open Scope string_scope.

Lemma prefix_refl (s : string) : prefix s s = true.
Proof.
  induction s as [| c s IH]; simpl; [reflexivity |].
  destruct (ascii_dec c c); [exact IH | contradiction].
Qed.

Lemma includes_empty (s : string) : includes s "" = true.
Proof. destruct s; reflexivity. Qed.

Lemma includes_refl (s : string) : includes s s = true.
Proof.
  destruct s as [| c s]; [reflexivity |].
  cbn [includes]. now rewrite prefix_refl.
Qed.

Section Filter.

Variable toLowerCase : string -> string.

Let filteredSurahs := filteredSurahs toLowerCase.

(** X20.  With the search box empty every surah is listed, in the order
    received (lowering the empty string gives the empty string). *)
Theorem empty_search_lists_all (surahs : list Surah) :
  toLowerCase "" = "" -> filteredSurahs "" surahs = surahs.
Proof.
  intros Hlower. unfold filteredSurahs, Quran.filteredSurahs.
  induction surahs as [| s rest IH]; simpl; [reflexivity |].
  unfold matches at 1. rewrite Hlower, includes_empty. simpl.
  now rewrite IH.
Qed.

(** X21.  A surah that was received is found by typing its name, Arabic or
    English, in full. *)
Theorem found_by_own_name (surahs : list Surah) (s : Surah) :
  In s surahs ->
  In s (filteredSurahs (name s) surahs) /\
  In s (filteredSurahs (englishName s) surahs).
Proof.
  intros Hin. unfold filteredSurahs, Quran.filteredSurahs.
  split; apply filter_In; (split; [exact Hin |]); unfold matches;
    rewrite includes_refl; [reflexivity | apply orb_true_r].
Qed.

End Filter.

Lemma empty_search_lists_all_two :
  let surahs := [ mkSurah 1 "Al-Faatiha" "Al-Faatiha";
                  mkSurah 2 "Al-Baqara" "Al-Baqara" ] in
  filteredSurahs Sample.lowerAscii "" surahs = surahs.
Proof.
  intros surahs. apply (empty_search_lists_all Sample.lowerAscii). reflexivity.
Defined.

Lemma found_by_own_name_baqara :
  let baqara := mkSurah 2 "Al-Baqara" "Al-Baqara" in
  let surahs := [ mkSurah 1 "Al-Faatiha" "Al-Faatiha"; baqara ] in
  In baqara (filteredSurahs Sample.lowerAscii (name baqara) surahs) /\
  In baqara (filteredSurahs Sample.lowerAscii (englishName baqara) surahs).
Proof.
  intros baqara surahs.
  apply (found_by_own_name Sample.lowerAscii surahs baqara).
  right. now left.
Defined.

End QuranFacts.

(** ** More on the adhan trigger *)

Module TriggerRunFacts.
Import Js App AdhanLogView TriggerFacts.
Local Open Scope Z_scope.
Local Open Scope string_scope.

Section Trigger.

Variable zoneOffset : Z.
Variable dayString : Z -> string.

Let adhanEffect := adhanEffect zoneOffset dayString.
Let renders := renders zoneOffset dayString.

(** X23.  One run of the effect either changes nothing or plays once: it
    appends a single key, remembers it in [lastAdhanPlayed], and that key
    names one of the five prayers whose minute of the day is that of the
    clock reading, and is not the key remembered before. *)
Theorem effect_plays_at_most_once adhanEnabled prayerTimes st
    (clock : Clock) (n : nat) :
  let st' := fst (adhanEffect adhanEnabled prayerTimes st clock n) in
  st' = st \/
  exists schedule p pTime,
    prayerTimes = Some schedule /\ adhanEnabled = true /\
    In p prayers /\ prayerField schedule p = Some pTime /\
    minuteOfDay zoneOffset (clock n) = minuteOfDay zoneOffset pTime /\
    lastAdhanPlayed st <> Some (todayKey zoneOffset dayString (clock n) p) /\
    st' = {| lastAdhanPlayed := Some (todayKey zoneOffset dayString (clock n) p);
             adhanLog := adhanLog st
                         ++ [todayKey zoneOffset dayString (clock n) p] |}.
Proof.
  unfold adhanEffect, App.adhanEffect.
  destruct adhanEnabled; [| now left].
  destruct prayerTimes as [schedule |]; [| now left].
  unfold bind, newDate.
  destruct (firstDue zoneOffset dayString schedule (clock n)
              (lastAdhanPlayed st) prayers) as [key |] eqn:Hfd; [| now left].
  right. apply firstDue_sound in Hfd.
  destruct Hfd as (p & pTime & Hp & Hf & -> & Hm & Hd).
  exists schedule, p, pTime. repeat split; auto.
  intros Hsame. rewrite Hsame, differs_same in Hd. discriminate.
Qed.

Lemma adhanEffect_lastPlayed adhanEnabled prayerTimes st (clock : Clock) n :
  lastAdhanPlayed st = lastPlayed (adhanLog st) ->
  let st' := fst (adhanEffect adhanEnabled prayerTimes st clock n) in
  lastAdhanPlayed st' = lastPlayed (adhanLog st').
Proof.
  intros Hst. unfold adhanEffect, App.adhanEffect.
  destruct adhanEnabled; [| exact Hst].
  destruct prayerTimes as [schedule |]; [| exact Hst].
  unfold bind, newDate.
  destruct (firstDue zoneOffset dayString schedule (clock n)
              (lastAdhanPlayed st) prayers) as [key |]; [| exact Hst].
  simpl. unfold lastPlayed. now rewrite rev_app_distr.
Qed.

(** X24.  Through any number of runs from the initial state,
    [lastAdhanPlayed] is the key played last, and [null] as long as nothing
    was played: it remembers one key, never an earlier one. *)
Theorem remembers_last_key_only rs (clock : Clock) :
  let st := run (renders rs initialState) clock in
  lastAdhanPlayed st = lastPlayed (adhanLog st).
Proof.
  unfold run.
  assert (Hgen : forall rs st n,
            lastAdhanPlayed st = lastPlayed (adhanLog st) ->
            lastAdhanPlayed (fst (renders rs st clock n))
            = lastPlayed (adhanLog (fst (renders rs st clock n)))).
  { clear rs. induction rs as [| [adhanEnabled prayerTimes] rs IH];
      intros st n Hst; [exact Hst |].
    unfold renders. rewrite renders_cons. apply IH.
    now apply adhanEffect_lastPlayed. }
  now apply Hgen.
Qed.

Lemma renders_without_schedule (flags : list bool) : forall st (clock : Clock) n,
  renders (map (fun adhanEnabled => (adhanEnabled, None)) flags) st clock n
  = (st, n).
Proof.
  induction flags as [| flag flags IH]; intros st clock n; [reflexivity |].
  cbn [map]. unfold renders. rewrite renders_cons.
  replace (App.adhanEffect zoneOffset dayString flag None st clock n)
    with (st, n) by now destruct flag.
  apply IH.
Qed.

End Trigger.

Section NoLocation.

Variable CalculationMethodType : Type.
Variable CalculationParameters : Type.
Variable CalculationMethod : CalculationMethodType -> CalculationParameters.
Variable Egyptian : CalculationMethodType.
Variable solve :
  AdhanLib.Coordinates -> Date -> CalculationParameters -> AdhanLib.PrayerTimes.
Variable timeForPrayer : AdhanLib.PrayerTimes -> AdhanLib.Prayer -> option Date.

Let prayerTimes :=
  PrayerTimesMemo.prayerTimes CalculationMethodType CalculationParameters
    CalculationMethod Egyptian solve timeForPrayer.

(** X25.  In manual mode with no city saved there is no schedule, whatever
    the GPS reports: [prayerTimes] is [null] without the clock or the solver
    being consulted, and however often the effect runs with it, nothing is
    played and nothing is remembered. *)
Theorem manual_mode_without_city_is_silent zoneOffset dayString
    (gpsLocation : option Qibla.Location) calcMethod currentTime
    (flags : list bool) st (clock : Clock) (n : nat) :
  let active := Settings.activeLocation true None gpsLocation in
  prayerTimes active calcMethod currentTime clock n = (None, n) /\
  renders zoneOffset dayString
    (map (fun adhanEnabled =>
            (adhanEnabled, fst (prayerTimes active calcMethod currentTime clock n)))
         flags) st clock n
  = (st, n).
Proof.
  split; [reflexivity |]. apply renders_without_schedule.
Qed.

End NoLocation.

End TriggerRunFacts.
